(** * Domain availability checker: a shallow embedding and its properties

    The development follows the JavaScript sources of the repository:
    - [src/index.js]: the browser side (normalizer, generator, categorizer,
      the chunked check loop with cooperative cancellation);
    - [src/api/check-domain.js] and [src/api/orchestrator.js]: the DNS based
      prober and the endpoints that run it over a list of domains;
    - [src/api/check-domains.js]: the XML registrar backend;
    - the streaming handler, with its loop over chunks of ten domains.

    Strings are sequences of code units; the model covers the code units
    below 256.  Exceptions are values of an error monad and [try]/[catch]
    is a combinator on it.  What the network, the language model and the
    user do is an argument of the functions: what a request settles to,
    the order in which the promises of a [Promise.all] settle, what the
    abort signal reads at the head of each iteration, how many copy
    buttons the page holds.  A promise is given by what it settles to;
    whether and when it settles is said apart: by the completion order of
    a [Promise.all], and for the prober by [Timed], which follows the
    response and its body through time.  Loops over an index take fuel;
    the theorems give their result for the fuel the handlers pass, which
    is enough whenever the batch size is positive. *)

From Stdlib Require Import String Ascii NArith ZArith Lia Bool.
From Stdlib Require DecimalString.
From stdpp Require Import base list strings sorting.

Local Open Scope string_scope.

(* ===================================================================== *)
(** ** JavaScript built-ins used by the program *)
(* ===================================================================== *)

Module Js.

(** [WhiteSpace] and [LineTerminator] code units below 256: the characters
    removed by [String.prototype.trim] and matched by [\s]. *)
Definition is_space (c : ascii) : bool :=
  let n := N_of_ascii c in
  ((9 <=? n) && (n <=? 13) || (n =? 32) || (n =? 160))%N.

(** [toLowerCase] on one code unit: A-Z and the Latin-1 capitals. *)
Definition lower_char (c : ascii) : ascii :=
  let n := N_of_ascii c in
  if ((65 <=? n) && (n <=? 90)
      || (192 <=? n) && (n <=? 222) && negb (n =? 215))%N
  then ascii_of_N (n + 32) else c.

Fixpoint toLowerCase (s : string) : string :=
  match s with
  | EmptyString => EmptyString
  | String c r => String (lower_char c) (toLowerCase r)
  end.

Fixpoint trimStart (s : string) : string :=
  match s with
  | EmptyString => EmptyString
  | String c r => if is_space c then trimStart r else s
  end.

Fixpoint trimEnd (s : string) : string :=
  match s with
  | EmptyString => EmptyString
  | String c r =>
      match trimEnd r with
      | EmptyString => if is_space c then EmptyString else String c EmptyString
      | r' => String c r'
      end
  end.

Definition trim (s : string) : string := trimEnd (trimStart s).

Fixpoint startsWith (p s : string) : bool :=
  match p, s with
  | EmptyString, _ => true
  | String a p', String b s' => if Ascii.eqb a b then startsWith p' s' else false
  | String _ _, EmptyString => false
  end.

(** [s.slice(n)] *)
Fixpoint slice_from (n : nat) (s : string) : string :=
  match n, s with
  | O, _ => s
  | S n', String _ r => slice_from n' r
  | S _, EmptyString => EmptyString
  end.

(** [s.split(sep)] for a one character separator: never empty. *)
Fixpoint split (sep : ascii) (s : string) : list string :=
  match s with
  | EmptyString => [EmptyString]
  | String c r =>
      if Ascii.eqb c sep then EmptyString :: split sep r
      else match split sep r with
           | h :: t => String c h :: t
           | [] => [String c EmptyString]
           end
  end.

(** [Boolean(s)] for a string: the empty string is the only falsy one. *)
Definition truthy (s : string) : bool :=
  match s with EmptyString => false | _ => true end.

(** [[...new Set(l)]]: insertion order, first occurrence kept. *)
Definition Set_add (acc : list string) (x : string) : list string :=
  if bool_decide (x ∈ acc) then acc else acc ++ [x].

Definition Set_spread (l : list string) : list string :=
  fold_left Set_add l [].

(** [a.slice(i, j)] on arrays, for [0 <= i]. *)
Definition slice {A} (i j : nat) (l : list A) : list A :=
  take (j - i) (drop i l).

Fixpoint all_chars (P : ascii -> bool) (s : string) : bool :=
  match s with
  | EmptyString => true
  | String c r => P c && all_chars P r
  end.

(** The double quote character, as a string. *)
Definition dq : string := String "034" EmptyString.

(** A code unit that [toLowerCase] leaves alone. *)
Definition lowered (c : ascii) : bool := Ascii.eqb (lower_char c) c.

Definition not_slash (c : ascii) : bool := negb (Ascii.eqb c "/").

End Js.

(* ===================================================================== *)
(** ** Domain normalizer ([normalizeDomain], src/index.js) *)
(* ===================================================================== *)

Module Normalizer.
Import Js.

(** [s.replace(/^(https?:\/\/)?(www\.)?/, '')]: both groups are optional
    and greedy, the pattern is anchored, so the match is the scheme when
    present followed by [www.] when present. *)
Definition strip_www (s : string) : string :=
  if startsWith "www." s then slice_from 4 s else s.

Definition strip_scheme (s : string) : string :=
  if startsWith "https://" s then slice_from 8 s
  else if startsWith "http://" s then slice_from 7 s
  else s.

Definition replace_prefix (s : string) : string := strip_www (strip_scheme s).

Definition normalizeDomain (domainStr : string) : string :=
  let cleanedDomain := toLowerCase (trim domainStr) in
  let cleanedDomain := replace_prefix cleanedDomain in
  let cleanedDomain := hd EmptyString (split "/" cleanedDomain) in
  cleanedDomain.

(** Checker mode input parsing of the click handler:
    [value.split('\n').map(d => d.trim()).filter(Boolean)]. *)
Definition rawDomains (value : string) : list string :=
  filter (fun d => truthy d = true) (map trim (split "010" value)).

(** [[...new Set(rawDomains.map(normalizeDomain))]] *)
Definition checker_domains (value : string) : list string :=
  Set_spread (map normalizeDomain (rawDomains value)).

End Normalizer.


(* ===================================================================== *)
(** ** Exceptions, JSON values and promises *)
(* ===================================================================== *)

Import Js.

Module Exc.

(** A thrown value: the two properties of an [Error] the program reads. *)
Record error := mkError { name : string; message : string }.

Inductive exc (A : Type) : Type :=
| Val (a : A)
| Throw (e : error).
Arguments Val {A} a.
Arguments Throw {A} e.

#[export] Instance exc_ret : MRet exc := fun A a => Val a.

#[export] Instance exc_bind : MBind exc := fun A B k c =>
  match c with
  | Val a => k a
  | Throw e => Throw e
  end.

(** [try { c } catch (error) { h error }] *)
Definition try_catch {A} (c : exc A) (h : error -> exc A) : exc A :=
  match c with
  | Val a => Val a
  | Throw e => h e
  end.

Definition AbortError : error := mkError "AbortError" "The operation was aborted.".
Definition TypeError (msg : string) : error := mkError "TypeError" msg.
Definition SyntaxError : error := mkError "SyntaxError" "Unexpected token in JSON".
Definition Error_ (msg : string) : error := mkError "Error" msg.

End Exc.

Module Json.

#[local] Unset Elimination Schemes.
Inductive Json :=
| JNull
| JBool (b : bool)
| JNum (n : Z)
| JStr (s : string)
| JArr (items : list Json)
| JObj (fields : list (string * Json)).
#[local] Set Elimination Schemes.

Fixpoint assoc (key : string) (fields : list (string * Json)) : option Json :=
  match fields with
  | [] => None
  | (k, v) :: rest => if String.eqb k key then Some v else assoc key rest
  end.

(** [data.key]: reading a property of [null] throws, a missing property or
    a property of a primitive is [undefined] ([None]). *)
Definition get (key : string) (data : Json) : Exc.exc (option Json) :=
  match data with
  | JNull => Exc.Throw (Exc.TypeError "Cannot read properties of null")
  | JObj fields => Exc.Val (assoc key fields)
  | _ => Exc.Val None
  end.

(** [v === n] for a number literal [n]. *)
Definition strict_eq_num (v : option Json) (n : Z) : bool :=
  match v with
  | Some (JNum m) => Z.eqb m n
  | _ => false
  end.

End Json.

Module Promise.
Import Exc.

(** [Promise.all(promises)].  [promises] lists what each promise settles
    to; [completion] lists the indices of the promises that settle, in the
    order in which they do.  A fulfilled promise stores its value in the
    slot of its index, the first rejection rejects the whole, and the
    result is delivered once every slot is filled ([None]: still pending). *)
Fixpoint settle {A} (promises : list (exc A)) (completion : list nat)
    (values : list (option A)) : exc (list (option A)) :=
  match completion with
  | [] => Val values
  | index :: rest =>
      match promises !! index with
      | Some (Val x) => settle promises rest (<[index := Some x]> values)
      | Some (Throw e) => Throw e
      | None => settle promises rest values
      end
  end.

Definition all {A} (promises : list (exc A)) (completion : list nat)
    : option (exc (list A)) :=
  match settle promises completion (replicate (length promises) None) with
  | Throw e => Some (Throw e)
  | Val values => Val <$> mapM id values
  end.

(** Every promise settles, in some order. *)
Definition complete_order (n : nat) (completion : list nat) : Prop :=
  completion ≡ₚ seq 0 n.

End Promise.

(* ===================================================================== *)
(** ** Availability prober ([checkDomainAvailability], src/api/check-domain.js) *)
(* ===================================================================== *)

Module Prober.
Import Exc Json.

Inductive AvailabilityStatus := Available | Unavailable | Timeout | Error.

#[export] Instance AvailabilityStatus_eq_dec : EqDecision AvailabilityStatus.
Proof. solve_decision. Defined.

Record AvailabilityResult := mkResult {
  domain : string;
  availability : AvailabilityStatus
}.

(** What the resolver does with one request, were it left alone: the
    response arrives after [delay] milliseconds and [response.json()]
    settles with [body], or the request fails after [delay] milliseconds,
    or nothing ever comes back.  This describes the requests whose body
    read settles, and what the promise of the probe settles to; when it
    does, and the requests whose body never arrives, are the matter of
    [Timed] below. *)
Inductive Network :=
| Responds (delay : nat) (body : exc Json)
| Rejects (delay : nat) (e : error)
| Hangs.

Definition timeout_ms : nat := 3000.

(** The timer of [setTimeout(() => controller.abort(), 3000)] fires before
    the request settles.  [tie] says who wins when both fall on the same
    millisecond. *)
Definition timer_first (tie : bool) (delay : nat) : bool :=
  (timeout_ms <? delay)%nat || tie && (delay =? timeout_ms)%nat.

(** [await fetch(url, { signal })] followed by [clearTimeout]: the value is
    the response, given by what its [json()] settles to.  The timer can
    fire during this [await] only; how long the body takes is of no
    consequence here (see [Timed.fetch_with_signal] and [Timed.json]). *)
Definition fetch_with_signal (tie : bool) (n : Network) : exc (exc Json) :=
  match n with
  | Responds delay body => if timer_first tie delay then Throw AbortError else Val body
  | Rejects delay e => if timer_first tie delay then Throw AbortError else Throw e
  | Hangs => Throw AbortError
  end.

Section WithResolver.
Variable tie : bool.
Variable resolver : string -> Network.

(** What the promise of [checkDomainAvailability(domain)] settles to. *)
Definition checkDomainAvailability (domain : string) : exc AvailabilityResult :=
  try_catch
    (response ← fetch_with_signal tie (resolver domain);
     data ← response;
     Status ← get "Status" data;
     if strict_eq_num Status 3
     then Val (mkResult domain Available)
     else Val (mkResult domain Unavailable))
    (fun error =>
       let availability :=
         if String.eqb (name error) "AbortError" then Timeout else Error in
       Val (mkResult domain availability)).

End WithResolver.

(** The variant of the streaming handlers: no timer, every failure is
    [Error].  [resolver] gives what [fetch] and [json()] settle to. *)
Definition checkDomainAvailability_stream (resolver : string -> exc Json)
    (domain : string) : exc AvailabilityResult :=
  try_catch
    (data ← resolver domain;
     Status ← get "Status" data;
     if strict_eq_num Status 3
     then Val (mkResult domain Available)
     else Val (mkResult domain Unavailable))
    (fun error => Val (mkResult domain Error)).

(** [results.filter(r => r.availability === 'Available').map(r => r.domain)] *)
Definition availableIn (results : list AvailabilityResult) : list string :=
  map domain (filter (fun r => availability r = Available) results).

End Prober.

(* ===================================================================== *)
(** ** HTTP endpoints *)
(* ===================================================================== *)

Module Http.
Import Exc Json Prober.

(** The fields the handlers read from the parsed request body.  [domains]
    is [Some l] when the field is an array, [None] when it is missing or
    is something else; a missing string field is [None]. *)
Record Body := mkBody {
  mode : option string;
  domains : option (list string);
  keywords : option string;
  tlds : option string
}.

Inductive Payload :=
| Results (results : list AvailabilityResult)
| Domains (domains : list string)
| Text (text : option string)
| ErrorBody (error : string)
| NoBody.

Record Response := mkResponse { status : nat; payload : Payload }.

(** A request of the fetch API: [req.method] and what [req.json()]
    settles to. *)
Record Request := mkRequest { method : string; json : exc Body }.

(** [!s] for an optional string: [undefined] and [''] are falsy. *)
Definition falsy (s : option string) : bool :=
  match s with
  | Some s => negb (truthy s)
  | None => true
  end.

(** [s.includes(needle)] *)
Fixpoint includes (needle s : string) : bool :=
  startsWith needle s ||
  match s with
  | EmptyString => false
  | String _ r => includes needle r
  end.

(** [e.message || fallback] *)
Definition message_or (fallback : string) (e : error) : string :=
  if truthy (message e) then message e else fallback.

(** [response.text.trim().split('\n').filter(Boolean)]; [text] is
    [undefined] when the model returned no text. *)
Definition parse_lines (text : option string) : exc (list string) :=
  match text with
  | None => Throw (TypeError "Cannot read properties of undefined")
  | Some t => Val (filter (fun d => truthy d = true) (split "010" (trim t)))
  end.

End Http.

(** *** [src/api/check-domain.js] *)
Module CheckDomain.
Import Exc Json Prober Http.

Section Handler.
Variable tie : bool.
Variable resolver : string -> Network.
(** The order in which the probes of the request settle. *)
Variable completion : list nat.

Definition handler (req : Request) : option Response :=
  if negb (String.eqb (method req) "POST")
  then Some (mkResponse 405 (ErrorBody "Method not allowed"))
  else
    match json req with
    | Throw e => Some (mkResponse 500 (ErrorBody "An internal server error occurred."))
    | Val body =>
        match domains body with
        | None | Some [] =>
            Some (mkResponse 400
              (ErrorBody ("Invalid input: " ++ dq ++ "domains" ++ dq ++ " array is required.")))
        | Some domains =>
            let checkPromises := map (checkDomainAvailability tie resolver) domains in
            match Promise.all checkPromises completion with
            | None => None
            | Some (Val results) => Some (mkResponse 200 (Results results))
            | Some (Throw e) =>
                Some (mkResponse 500 (ErrorBody "An internal server error occurred."))
            end
        end
    end.

End Handler.
End CheckDomain.

(** *** [src/api/orchestrator.js], the [mode] dispatcher *)
Module Orchestrator.
Import Exc Json Prober Http.

Section Handler.
Variable tie : bool.
Variable resolver : string -> Network.
Variable completion : list nat.
(** [process.env.API_KEY] *)
Variable API_KEY : option string.
(** What [ai.models.generateContent] settles to: the [text] of the response. *)
Variable generateContent : exc (option string).

Definition dispatch (body : Body) : option (exc Response) :=
  match mode body with
  | Some "generate" =>
      if falsy (keywords body) || falsy (tlds body)
      then Some (Val (mkResponse 400 (ErrorBody "Keywords and TLDs are required.")))
      else Some (genResponse ← generateContent;
                 generatedDomains ← parse_lines genResponse;
                 Val (mkResponse 200 (Domains generatedDomains)))
  | Some "check" =>
      match domains body with
      | None => Some (Val (mkResponse 400 (ErrorBody "Domains array is required.")))
      | Some domains =>
          let checkPromises := map (checkDomainAvailability tie resolver) domains in
          match Promise.all checkPromises completion with
          | None => None
          | Some settled =>
              Some (results ← settled; Val (mkResponse 200 (Results results)))
          end
      end
  | Some "categorize" =>
      match domains body with
      | None => Some (Val (mkResponse 400 (ErrorBody "Domains array is required.")))
      | Some domains =>
          Some (catResponse ← generateContent;
                Val (mkResponse 200 (Text catResponse)))
      end
  | _ => Some (Val (mkResponse 400 (ErrorBody "Invalid mode specified.")))
  end.

Definition handler (req : Request) : option Response :=
  if negb (String.eqb (method req) "POST")
  then Some (mkResponse 405 (ErrorBody "Method not allowed"))
  else if falsy API_KEY
  then Some (mkResponse 500 (ErrorBody "Server configuration error: API_KEY is missing."))
  else
    match (body ← json req; Val (dispatch body)) with
    | Throw e => Some (mkResponse 500 (ErrorBody (message_or "An internal server error occurred." e)))
    | Val None => None
    | Val (Some (Val response)) => Some response
    | Val (Some (Throw e)) => Some (mkResponse 500 (ErrorBody (message_or "An internal server error occurred." e)))
    end.

End Handler.
End Orchestrator.

(** *** [src/api/check-domains.js], the XML registrar variant *)
Module Namecheap.
Import Exc Json Prober Http.

(** [request.body] is [undefined] when the request carries none. *)
Record Request := mkRequest { method : string; body : option Body }.

(** The template literal
    [<DomainCheckResult Domain=(dq)${domain}(dq) Available=(dq)true(dq)]. *)
Definition needle (domain : string) : string :=
  "<DomainCheckResult Domain=" ++ dq ++ domain ++ dq ++ " Available=" ++ dq ++ "true" ++ dq.

Definition classify (xmlText domain : string) : AvailabilityResult :=
  let isAvailable := includes (needle domain) xmlText in
  mkResult domain (if isAvailable then Available else Unavailable).

Section Handler.
(** [process.env.NAMECHEAP_API_USER], [process.env.NAMECHEAP_API_KEY] *)
Variable API_USER API_KEY : option string.
(** What [fetch(namecheapApiUrl)] followed by [text()] settles to. *)
Variable fetch_text : list string -> exc string.

Definition handler (request : Request) : exc Response :=
  if String.eqb (method request) "OPTIONS" then Val (mkResponse 200 NoBody)
  else if negb (String.eqb (method request) "POST")
  then Val (mkResponse 405 (ErrorBody "Method Not Allowed"))
  else
    match body request with
    | None => Throw (TypeError "Cannot destructure property of undefined")
    | Some b =>
        match domains b with
        | None | Some [] =>
            Val (mkResponse 400 (ErrorBody "Domains must be a non-empty array."))
        | Some domains =>
            if falsy API_USER || falsy API_KEY
            then Val (mkResponse 500 (ErrorBody "Server configuration error."))
            else
              try_catch
                (xmlText ← fetch_text domains;
                 let results := map (classify xmlText) domains in
                 Val (mkResponse 200 (Results results)))
                (fun error => Val (mkResponse 500 (ErrorBody "Failed to check domains.")))
        end
    end.

End Handler.
End Namecheap.

(* ===================================================================== *)
(** ** The browser side ([src/index.js]) *)
(* ===================================================================== *)

Module Client.
Import Normalizer.
Import Exc Json Prober Http.

(** How a chunk loop is left. *)
Inductive LoopExit :=
| Finished            (* the loop condition failed *)
| Broke               (* [break] *)
| Raised (e : error). (* an exception left the loop *)

(** [s.replace(/^```json\s*|```\s*$/g, '')].  The first alternative can
    match at the start only; the second one removes a closing fence that
    is followed by white space up to the end of the string. *)
Fixpoint strip_closing_fence (s : string) : string :=
  match s with
  | EmptyString => EmptyString
  | String c r =>
      if startsWith "```" s && all_chars is_space (slice_from 3 s)
      then EmptyString
      else String c (strip_closing_fence r)
  end.

Definition strip_fences (s : string) : string :=
  if startsWith "```json" s
  then strip_closing_fence (trimStart (slice_from 7 s))
  else strip_closing_fence s.

(** The single group of the categorizer's [catch] branch. *)
Definition fallback_groups (domains : list string) : Json :=
  JArr [JObj [("category", JStr "Available Domains");
              ("domains", JArr (map JStr domains))]].

(** The variables of the chunk loop, and a record of what the loop did:
    the batches posted (with the index [i] of their iteration), the results
    received for them, and the [checkedCount] shown after each update. *)
Record LoopState := mkState {
  checkedCount : nat;
  allAvailableDomains : list string;
  isCancelled : bool;
  requests : list (nat * list string);
  responses : list (list AvailabilityResult);
  progress : list nat
}.

Inductive Mode := checker | generator.

Record Ui := mkUi {
  currentMode : Mode;
  domainInput : string;
  keywordsInput : string;
  tldsInput : string
}.

(** What the rest of the world does during one click:
    the generation call, the abort signal as read at the head of the
    iteration with index [i], what the [fetch] of the batch posted in that
    iteration settles to, and the categorization call. *)
Record Env := mkEnv {
  generated : exc (option string);
  aborted : nat -> bool;
  backend : nat -> list string -> exc Response;
  categorized : exc (option string)
}.

Inductive RunOutcome :=
| Alerted (msg : string)
| NothingGenerated
| Cancelled (partialAvailableDomains : list string)
| NoneAvailable
| Completed (availableDomains : list string) (categorized : Json)
| Failed (e : error).

Record RunReport := mkReport { outcome : RunOutcome; final : option LoopState }.

Section Run.
Variable JSON_parse : string -> option Json.
(** The number of elements that
    [document.querySelectorAll('.copy-cat-button')] finds once the page
    shows the groups: one for each group, when no text of the groups is
    markup and the page has no other element of that class. *)
Variable copy_cat_buttons : Json -> nat.
Variable BATCH_SIZE : nat.
Variable env : Env.

(** [response.ok] *)
Definition ok (response : Response) : bool :=
  (200 <=? status response)%nat && (status response <=? 299)%nat.

(** [checkDomainsWithBackend(domains, signal)], called in the iteration
    with index [i]; a body that is not an array of results makes the
    caller's [results.filter] throw. *)
Definition checkDomainsWithBackend (i : nat) (domains : list string)
    : exc (list AvailabilityResult) :=
  response ← backend env i domains;
  if negb (ok response)
  then Throw (Error_ "The server returned an error. Please try again later.")
  else
    match payload response with
    | Results results => Val results
    | _ => Throw (TypeError "results.filter is not a function")
    end.

Definition generateDomainIdeas : exc (list string) :=
  try_catch
    (response ← generated env; parse_lines response)
    (fun error => Val []).

Definition safeJsonParse (jsonString : option string) : exc Json :=
  match jsonString with
  | None => Throw (TypeError "Cannot read properties of undefined")
  | Some s =>
      let cleanedString := strip_fences (trim s) in
      match JSON_parse cleanedString with
      | Some v => Val v
      | None => Throw (Error_ "Invalid JSON response from AI model.")
      end
  end.

Definition categorizeDomains (domains : list string) : exc Json :=
  if (length domains =? 0)%nat then Val (JArr [])
  else
    try_catch
      (response ← categorized env; safeJsonParse response)
      (fun error => Val (fallback_groups domains)).

(** [categorizedDomains.length === 0]: reading a property of [null]
    throws, a number or a boolean has no [length]. *)
Definition length_is_zero (categorizedDomains : Json) : exc bool :=
  match categorizedDomains with
  | JNull => Throw (TypeError "Cannot read properties of null (reading 'length')")
  | JArr items => Val (length items =? 0)%nat
  | JStr s => Val (String.length s =? 0)%nat
  | JObj fields => Val (strict_eq_num (assoc "length" fields) 0)
  | _ => Val false
  end.

(** The callback of [categorizedDomains.map((cat, index) => ...)]: the
    template reads [cat.category] and [cat.domains.length] and calls
    [cat.domains.map(...)], which only an array has. *)
Definition render_group (cat : Json) : exc unit :=
  category ← get "category" cat;
  domains ← get "domains" cat;
  match domains with
  | Some (JArr _) => Val tt
  | Some JNull => Throw (TypeError "Cannot read properties of null (reading 'length')")
  | None => Throw (TypeError "Cannot read properties of undefined (reading 'length')")
  | Some _ => Throw (TypeError "cat.domains.map is not a function")
  end.

(** [displayResults(categorizedDomains, allAvailableDomains)].  The
    "Copy All" button is set up without an exception; the groups are
    rendered; then each button of class [copy-cat-button], with its index,
    reads [categorizedDomains[index].domains]. *)
Definition displayResults (categorizedDomains : Json)
    (allAvailableDomains : list string) : exc unit :=
  empty ← length_is_zero categorizedDomains;
  if (empty : bool) then Val tt
  else
    match categorizedDomains with
    | JArr items =>
        rendered ← mapM render_group items;
        if (copy_cat_buttons categorizedDomains <=? length items)%nat then Val tt
        else Throw (TypeError "Cannot read properties of undefined (reading 'domains')")
    | _ => Throw (TypeError "categorizedDomains.map is not a function")
    end.

Section Loop.
Variable domains : list string.

Definition totalDomains : nat := length domains.

Definition initial : LoopState := mkState 0 [] false [] [] [0].

(** [isCancelled = true] *)
Definition mark_cancelled (st : LoopState) : LoopState :=
  mkState (checkedCount st) (allAvailableDomains st) true
    (requests st) (responses st) (progress st).

(** The batch of iteration [i] is posted. *)
Definition post (i : nat) (batch : list string) (st : LoopState) : LoopState :=
  mkState (checkedCount st) (allAvailableDomains st) (isCancelled st)
    (requests st ++ [(i, batch)])%list (responses st) (progress st).

(** The rest of the loop body, once the results of the batch are there. *)
Definition collect (batch : list string) (results : list AvailabilityResult)
    (st : LoopState) : LoopState :=
  let availableInBatch := availableIn results in
  let checkedCount := (checkedCount st + length batch) `min` totalDomains in
  mkState checkedCount (allAvailableDomains st ++ availableInBatch)%list
    (isCancelled st) (requests st) (responses st ++ [results])%list
    (progress st ++ [checkedCount])%list.

(** [for (let i = 0; i < totalDomains; i += BATCH_SIZE) { ... }] *)
Fixpoint check_loop (fuel i : nat) (st : LoopState) : option (LoopExit * LoopState) :=
  match fuel with
  | O => None
  | S fuel =>
      if (totalDomains <=? i)%nat then Some (Finished, st)
      else if aborted env i then Some (Broke, mark_cancelled st)
      else
        let batch := slice i (i + BATCH_SIZE) domains in
        let st := post i batch st in
        match checkDomainsWithBackend i batch with
        | Throw e => Some (Raised e, st)
        | Val results => check_loop fuel (i + BATCH_SIZE) (collect batch results st)
        end
  end.

(** What follows the loop, and the [catch] of the handler;
    [displayActions()] throws nothing. *)
Definition after_loop (exit : LoopExit) (st : LoopState) : RunOutcome :=
  let on_error (e : error) :=
    if String.eqb (name e) "AbortError"
    then Cancelled (allAvailableDomains st) else Failed e in
  match exit with
  | Raised e => on_error e
  | _ =>
      if isCancelled st then Cancelled (allAvailableDomains st)
      else if (0 <? length (allAvailableDomains st))%nat then
        match categorized ← categorizeDomains (allAvailableDomains st);
              shown ← displayResults categorized (allAvailableDomains st);
              Val categorized
        with
        | Val groups => Completed (allAvailableDomains st) groups
        | Throw e => on_error e
        end
      else NoneAvailable
  end.

Definition run_checks : option RunReport :=
  match check_loop (S totalDomains) 0 initial with
  | None => None
  | Some (exit, st) => Some (mkReport (after_loop exit st) (Some st))
  end.

End Loop.

(** The click handler of [analyzeButton]. *)
Definition analyze (ui : Ui) : option RunReport :=
  match currentMode ui with
  | checker =>
      let domains := checker_domains (domainInput ui) in
      if (length domains =? 0)%nat
      then Some (mkReport (Alerted "Please paste a list of domains.") None)
      else run_checks domains
  | generator =>
      if negb (truthy (keywordsInput ui)) || negb (truthy (tldsInput ui))
      then Some (mkReport
                   (Alerted "Please provide keywords and TLDs to generate domains.") None)
      else
        match generateDomainIdeas with
        | Throw e => Some (mkReport (Failed e) None)
        | Val domains =>
            if (length domains =? 0)%nat
            then Some (mkReport NothingGenerated None)
            else run_checks domains
        end
  end.

End Run.

(** Invariants of the chunk loop, at the head of the iteration with index
    [i]: the counter and the values shown so far; the batches posted so far
    and the abort signal. *)
Definition progress_inv (domains : list string) (i : nat) (st : LoopState) : Prop :=
  checkedCount st = i `min` length domains /\
  last (progress st) = Some (checkedCount st) /\
  Sorted le (progress st) /\
  Forall (fun c => c <= length domains) (progress st) /\
  isCancelled st = false.

Definition request_inv (BATCH_SIZE : nat) (env : Env) (i : nat) (st : LoopState) : Prop :=
  (exists m, i = m * BATCH_SIZE) /\
  (forall m, m * BATCH_SIZE < i -> aborted env (m * BATCH_SIZE) = false) /\
  (forall j b, (j, b) ∈ requests st -> j < i /\ exists m, j = m * BATCH_SIZE).

End Client.

(* ===================================================================== *)
(** ** The streaming handler ([BATCH_SIZE = 10] loop) *)
(* ===================================================================== *)

(** The object that the runtime passes to [start(controller)] of a
    [ReadableStream]. *)
Module Controller.
Import Exc.

(** [controller.getWriter()].  A [ReadableStreamDefaultController] has the
    methods [close], [enqueue] and [error] and the property [desiredSize],
    and nothing called [getWriter]: the call throws a [TypeError]. *)
Definition getWriter : exc unit :=
  Throw (TypeError "controller.getWriter is not a function").

End Controller.

Module Stream.
Import Exc Json Prober Http.

(** The frames written to the event stream. *)
Inductive Event :=
| ev_status (text : string)
| ev_generated_domains (domains : list string)
| ev_progress (checked total available : nat)
| ev_results (categorized : Json) (allAvailable : list string)
| ev_no_results
| ev_error (message : string).

(** The [checked] fields of the progress frames, in the order written. *)
Definition checked_counts (w : list Event) : list nat :=
  omap (fun ev => match ev with ev_progress checked _ _ => Some checked | _ => None end) w.

(** The array of the loop, the frames written so far, and a record of the
    results of each chunk. *)
Record LoopState := mkState {
  allAvailableDomains : list string;
  written : list Event;
  chunks : list (list AvailabilityResult)
}.

Section Start.
Variable JSON_parse : string -> option Json.
Variable BATCH_SIZE : nat.
(** What the resolver request for a name settles to. *)
Variable resolver : string -> exc Json.
(** The order in which the probes of the chunk that starts at [i] settle. *)
Variable completion : nat -> list nat.
(** What the generation and the categorization calls settle to. *)
Variable generated categorized : exc (option string).

Section Loop.
Variable domainsToCheck : list string.

Definition totalDomains : nat := length domainsToCheck.

(** The loop body, once the results of the chunk that starts at [i] are
    there. *)
Definition collect (i : nat) (results : list AvailabilityResult)
    (st : LoopState) : LoopState :=
  let availableInBatch := availableIn results in
  let allAvailableDomains := (allAvailableDomains st ++ availableInBatch)%list in
  let checkedCount := (i + BATCH_SIZE) `min` totalDomains in
  mkState allAvailableDomains
    (written st ++
       [ev_progress checkedCount totalDomains (length allAvailableDomains)])%list
    (chunks st ++ [results])%list.

(** [for (let i = 0; i < totalDomains; i += BATCH_SIZE) { ... }] *)
Fixpoint check_loop (fuel i : nat) (st : LoopState)
    : option (LoopState * option Exc.error) :=
  match fuel with
  | O => None
  | S fuel =>
      if (totalDomains <=? i)%nat then Some (st, None)
      else
        let batch := slice i (i + BATCH_SIZE) domainsToCheck in
        let promises := map (checkDomainAvailability_stream resolver) batch in
        match Promise.all promises (completion i) with
        | None => None
        | Some (Throw e) => Some (st, Some e)
        | Some (Val results) => check_loop fuel (i + BATCH_SIZE) (collect i results st)
        end
  end.

End Loop.

(** Step 1 of the handler: the list to check and the frames written. *)
Definition generate_step (body : Body) : list Event * exc (list string) :=
  let domainsToCheck := default [] (domains body) in
  match mode body with
  | Some "generator" =>
      if falsy (keywords body) || falsy (tlds body)
      then ([], Throw (Error_ "Keywords and TLDs are required for generator mode."))
      else
        let w := [ev_status "Generating domain ideas..."] in
        match genResponse ← generated; parse_lines genResponse with
        | Throw e => (w, Throw e)
        | Val generatedDomains =>
            let domainsToCheck := Set_spread generatedDomains in
            ((w ++ [ev_generated_domains domainsToCheck])%list, Val domainsToCheck)
        end
  | _ => ([], Val domainsToCheck)
  end.

(** [JSON.parse(catResponse.text)]; [JSON.parse(undefined)] throws too. *)
Definition parse_categories (text : option string) : exc Json :=
  match text ≫= JSON_parse with
  | Some v => Val v
  | None => Throw SyntaxError
  end.

(** Step 3 of the handler. *)
Definition categorize_step (st : LoopState) : list Event :=
  if (0 <? length (allAvailableDomains st))%nat then
    let w := (written st ++ [ev_status "Categorizing available domains..."])%list in
    match catResponse ← categorized; parse_categories catResponse with
    | Throw e => (w ++ [ev_error (message_or "An unknown error occurred." e)])%list
    | Val categorizedDomains =>
        (w ++ [ev_results categorizedDomains (allAvailableDomains st)])%list
    end
  else (written st ++ [ev_no_results])%list.

(** The [try], [catch] and [finally] of [start], for a writer: the frames
    on the stream when it is closed ([None]: a chunk is still out). *)
Definition start_try (body : Body) : option (list Event) :=
  let '(w, step1) := generate_step body in
  let fail (w : list Event) (e : Exc.error) :=
    (w ++ [ev_error (message_or "An unknown error occurred." e)])%list in
  match step1 with
  | Throw e => Some (fail w e)
  | Val domainsToCheck =>
      if (length domainsToCheck =? 0)%nat
      then Some (fail w (Error_ "No domains to check."))
      else
        let w := (w ++ [ev_status "Checking domain availability..."])%list in
        match check_loop domainsToCheck (S (length domainsToCheck)) 0 (mkState [] w []) with
        | None => None
        | Some (st, Some e) => Some (fail (written st) e)
        | Some (st, None) => Some (categorize_step st)
        end
  end.

(** [start(controller)].  The writer is asked of the controller before the
    [try]: an exception there rejects the promise of [start], which puts
    the stream in the errored state with no frame written and no
    [close]. *)
Definition start (body : Body) : exc (option (list Event)) :=
  writer ← Controller.getWriter;
  Val (start_try body).

(** What the handler returns: a JSON response, or a response whose body is
    the stream, given by what [start] does. *)
Inductive Answer :=
| Plain (response : Response)
| Streamed (stream : exc (option (list Event))).

Definition handler (req : Request) : Answer :=
  if negb (String.eqb (method req) "POST")
  then Plain (mkResponse 405 (ErrorBody "Method not allowed"))
  else
    match json req with
    | Throw e => Plain (mkResponse 500 (ErrorBody (message e)))
    | Val body => Streamed (start body)
    end.

End Start.
End Stream.

(* ===================================================================== *)
(** ** The text field of the checker ([blur] handler, src/index.js) *)
(* ===================================================================== *)

Module Input.
Import Normalizer.

Definition LF : string := String "010" EmptyString.

(** [l.join(sep)] *)
Fixpoint join (sep : string) (l : list string) : string :=
  match l with
  | [] => EmptyString
  | x :: rest =>
      match rest with
      | [] => x
      | _ => x ++ sep ++ join sep rest
      end
  end.

Definition not_LF (c : ascii) : bool := negb (Ascii.eqb c "010").

(** The handler of [blur] on the text field: the new value of the field. *)
Definition blur (value : string) : string :=
  let rawDomains := rawDomains value in
  if (0 <? length rawDomains)%nat
  then
    let normalizedDomains := Set_spread (map normalizeDomain rawDomains) in
    join LF normalizedDomains
  else value.

End Input.

(* ===================================================================== *)
(** ** Server-sent events: [writeToStream] and the reader of the browser *)
(* ===================================================================== *)

Module Sse.
Import Exc.

Definition LFLF : string := String "010" (String "010" EmptyString).

(** [`data: ${jsonString}\n\n`], the text [writeToStream] writes for a
    serialized frame. *)
Definition frame (jsonString : string) : string :=
  "data: " ++ jsonString ++ LFLF.

Definition cons_head (c : ascii) (l : list string) : list string :=
  match l with
  | h :: t => String c h :: t
  | [] => [String c EmptyString]
  end.

(** [s.split('\n\n')]: the occurrences of the separator are taken from the
    left and do not overlap. *)
Fixpoint split_LFLF (s : string) : list string :=
  match s with
  | EmptyString => [EmptyString]
  | String c r =>
      match r with
      | String c' r' =>
          if Ascii.eqb c "010" && Ascii.eqb c' "010"
          then EmptyString :: split_LFLF r'
          else cons_head c (split_LFLF r)
      | EmptyString => cons_head c (split_LFLF r)
      end
  end.

(** How the read loop is left. *)
Inductive ReadExit :=
| Done                (* [reader.read()] reported the end of the stream *)
| Cancelled           (* [isProcessingCancelled] was found set *)
| Raised (e : error). (* an exception left the loop *)

Section Writer.
Context {Frame : Type}.
(** [JSON.stringify({ event, data })] *)
Variable JSON_stringify : Frame -> string.

(** What a sequence of [writeToStream] calls puts on the stream. *)
Definition written_text (frames : list Frame) : string :=
  Input.join EmptyString (map (fun f => frame (JSON_stringify f)) frames).

End Writer.

Section Reader.
Context {Frame : Type}.
(** [JSON.parse(jsonString)] followed by the destructuring of the frame. *)
Variable JSON_parse : string -> exc Frame.
(** [isProcessingCancelled], as read at the head of iteration [k]. *)
Variable isProcessingCancelled : nat -> bool.

(** [for (const line of lines) { ... }]: the frames handed to
    [handleStreamEvent], which catches its own exceptions. *)
Fixpoint handle_lines (lines : list string) (handled : list Frame)
    : list Frame * option error :=
  match lines with
  | [] => (handled, None)
  | line :: rest =>
      if startsWith "data: " line
      then
        let jsonString := slice_from 6 line in
        match JSON_parse jsonString with
        | Val f => handle_lines rest (handled ++ [f])%list
        | Throw e => (handled, Some e)
        end
      else handle_lines rest handled
  end.

(** [while (true) { ... }] over the chunks [reader.read()] delivers;
    [ending] is the exception of the read that follows the last chunk, if
    that read fails. *)
Fixpoint read_loop (chunks : list string) (ending : option error) (k : nat)
    (buffer : string) (handled : list Frame) : ReadExit * string * list Frame :=
  if isProcessingCancelled k then (Cancelled, buffer, handled)
  else
    match chunks with
    | [] =>
        match ending with
        | None => (Done, buffer, handled)
        | Some e => (Raised e, buffer, handled)
        end
    | value :: rest =>
        let buffer := buffer ++ value in
        let lines := split_LFLF buffer in
        let buffer := default EmptyString (last lines) in
        let lines := removelast lines in
        match handle_lines lines handled with
        | (handled, None) => read_loop rest ending (S k) buffer handled
        | (handled, Some e) => (Raised e, buffer, handled)
        end
    end.

End Reader.
End Sse.

(* ===================================================================== *)
(** ** The streaming handler of [src/api/orchestrator.js] *)
(* ===================================================================== *)

Module OrchestratorStream.
Import Exc Json Prober Http.

(** [`${n}`] for a length. *)
Definition decimal (n : nat) : string :=
  DecimalString.NilEmpty.string_of_uint (Nat.to_uint n).

Inductive Event :=
| ev_status (text : string)
| ev_domain_list (domains : list string)
| ev_domain_result (result : AvailabilityResult)
| ev_finished (message : string)
| ev_error (message : string).

(** What the handler returns: a JSON response, or a response whose body is
    the stream, given by what [start] does: an exception puts the stream
    in the errored state; otherwise the frames written to it and whether
    it is closed in the end. *)
Inductive Answer :=
| Plain (response : Response)
| Streamed (stream : exc (list Event * bool)).

Section Handler.
(** What the resolver request for a name settles to. *)
Variable resolver : string -> exc Json.
(** The probes that settle, in the order in which they do. *)
Variable completion : list nat.
Variable API_KEY : option string.
Variable generateContent : exc (option string).

(** Step 1 of [start]: the list to check and the frames written. *)
Definition generate_step (body : Body) : list Event * exc (list string) :=
  let domainsToCheck := default [] (domains body) in
  match mode body with
  | Some "generator" =>
      if falsy (keywords body) || falsy (tlds body)
      then ([], Throw (Error_ "Keywords and TLDs are required for generator mode."))
      else
        let w := [ev_status "Generating ideas..."] in
        match genResponse ← generateContent; parse_lines genResponse with
        | Throw e => (w, Throw e)
        | Val generatedDomains => (w, Val (Set_spread generatedDomains))
        end
  | _ => ([], Val domainsToCheck)
  end.

(** The frame written by the callbacks of the probe with index [index]:
    [.then(result => ...)], or [.catch(err => ...)] with an [Error] result
    for the domain. *)
Definition result_frame (domainsToCheck : list string) (index : nat) : option Event :=
  domain ← domainsToCheck !! index;
  match checkDomainAvailability_stream resolver domain with
  | Val result => Some (ev_domain_result result)
  | Throw err => Some (ev_domain_result (mkResult domain Error))
  end.

(** The [try], [catch] and [finally] of [start], for a writer. *)
Definition start_try (body : Body) : list Event * bool :=
  let fail (w : list Event) (e : error) :=
    ((w ++ [ev_error (message_or "An unknown error occurred." e)])%list, true) in
  let '(w, step1) := generate_step body in
  match step1 with
  | Throw e => fail w e
  | Val domainsToCheck =>
      if (length domainsToCheck =? 0)%nat
      then fail w (Error_ "No domains to check.")
      else
        let w := (w ++ [ev_domain_list domainsToCheck;
                        ev_status ("Checking " ++ decimal (length domainsToCheck)
                                   ++ " domains...")])%list in
        (* every promise of [checkPromises] is fulfilled, with nothing *)
        let checkPromises := map (fun _ : string => Val tt) domainsToCheck in
        let w := (w ++ omap (result_frame domainsToCheck) completion)%list in
        match Promise.all checkPromises completion with
        | None => (w, false)
        | Some (Throw e) => fail w e
        | Some (Val _) => ((w ++ [ev_finished "All domains checked."])%list, true)
        end
  end.

(** [start(controller)].  The writer is asked of the controller before the
    [try]: an exception there rejects the promise of [start], and the
    stream is errored with no frame written. *)
Definition start (body : Body) : exc (list Event * bool) :=
  writer ← Controller.getWriter;
  Val (start_try body).

Definition handler (req : Request) : Answer :=
  if negb (String.eqb (method req) "POST")
  then Plain (mkResponse 405 (ErrorBody "Method not allowed"))
  else if falsy API_KEY
  then Plain (mkResponse 500 (ErrorBody "Server configuration error: API_KEY is missing."))
  else
    match json req with
    | Throw e => Plain (mkResponse 500 (ErrorBody (message e)))
    | Val body => Streamed (start body)
    end.

End Handler.
End OrchestratorStream.

(* ===================================================================== *)
(** ** The bulk-check variant of [src/api/check-domains.js] *)
(* ===================================================================== *)

Module GoDaddy.
Import Exc Json Prober Http.

(** [request.body] is [undefined] when the request carries none. *)
Record Request := mkRequest { method : string; body : option Body }.

(** An entry of [data.domains]: its [domain] and whether its [available]
    is truthy. *)
Record Item := mkItem { item_domain : string; item_available : bool }.

(** The response of the registrar: [apiResponse.ok], what [text()] and
    what [json()] settle to.  The parsed body is given by its [domains]
    field when that is an array ([None] otherwise, and [data.domains.map]
    throws). *)
Record ApiResponse := mkApiResponse {
  api_ok : bool;
  api_text : exc string;
  api_json : exc (option (list Item))
}.

Definition convert (item : Item) : AvailabilityResult :=
  mkResult (item_domain item) (if item_available item then Available else Unavailable).

Section Handler.
(** [process.env.GODADDY_API_KEY], [process.env.GODADDY_API_SECRET] *)
Variable API_KEY API_SECRET : option string.
(** What [fetch(godaddyApiUrl, ...)] settles to for a list of domains. *)
Variable fetch : list string -> exc ApiResponse.

Definition handler (request : Request) : exc Response :=
  if String.eqb (method request) "OPTIONS" then Val (mkResponse 200 NoBody)
  else if negb (String.eqb (method request) "POST")
  then Val (mkResponse 405 (ErrorBody "Method Not Allowed"))
  else
    match body request with
    | None => Throw (TypeError "Cannot destructure property of undefined")
    | Some b =>
        match domains b with
        | None | Some [] =>
            Val (mkResponse 400 (ErrorBody "Domains must be a non-empty array."))
        | Some domains =>
            if falsy API_KEY || falsy API_SECRET
            then Val (mkResponse 500 (ErrorBody "Server configuration error."))
            else
              try_catch
                (apiResponse ← fetch domains;
                 if negb (api_ok apiResponse)
                 then
                   _ ← api_text apiResponse;
                   Val (mkResponse 500
                          (ErrorBody "Failed to check domains due to an API error."))
                 else
                   data ← api_json apiResponse;
                   match data with
                   | None => Throw (TypeError "Cannot read properties of undefined")
                   | Some items =>
                       let results := map convert items in
                       Val (mkResponse 200 (Results results))
                   end)
                (fun error =>
                   Val (mkResponse 500
                          (ErrorBody "Failed to connect to the domain checking service.")))
        end
    end.

End Handler.
End GoDaddy.

(* ===================================================================== *)
(** ** Code fences around a model answer *)
(* ===================================================================== *)

Module Fence.

(** A code unit other than the backtick. *)
Definition not_backtick (c : ascii) : bool := negb (Ascii.eqb c "`").

(** [```json], white space, a body and the closing fence, with white space
    around the whole. *)
Definition fenced (before inner body after : string) : string :=
  before ++ "```json" ++ inner ++ body ++ "```" ++ after.

End Fence.

(* ===================================================================== *)
(** ** Spellings of a host name *)
(* ===================================================================== *)

Module Url.

(** A code unit of a host name: no white space, no slash, no colon. *)
Definition host_char (c : ascii) : bool :=
  negb (is_space c) && negb (Ascii.eqb c "/") && negb (Ascii.eqb c ":").

(** The first slash or colon of a string. *)
Fixpoint first_delim (s : string) : option ascii :=
  match s with
  | EmptyString => None
  | String c r =>
      if Ascii.eqb c "/" || Ascii.eqb c ":" then Some c else first_delim r
  end.

(** A line of the input: white space, a scheme, [www.], the host, a path
    and white space. *)
Definition spelled (before scheme www host tail after : string) : string :=
  before ++ (scheme ++ www ++ host ++ tail) ++ after.

End Url.

(* ===================================================================== *)
(** ** The prober in time ([checkDomainAvailability], src/api/check-domain.js) *)
(* ===================================================================== *)

Module Timed.
Import Exc Json Prober.

(** [response.json()]: the body arrives [after] milliseconds after the
    response and is parsed, or fails to; or it never arrives. *)
Inductive BodyRead :=
| Arrives (after : nat) (body : exc Json)
| Stalls.

(** What the resolver does with one request, were it left alone: the
    response arrives after [delay] milliseconds, with its body still to be
    read; or the request fails after [delay] milliseconds; or nothing ever
    comes back. *)
Inductive Exchange :=
| Answers (delay : nat) (read : BodyRead)
| Fails (delay : nat) (e : error)
| Silent.

(** A promise: it settles [at] some millisecond, with a value or an
    exception, or stays pending for ever. *)
Inductive Settlement (A : Type) :=
| SettlesAt (at_ms : nat) (r : exc A)
| Pending.
Arguments SettlesAt {A} at_ms r.
Arguments Pending {A}.

Section WithResolver.
Variable tie : bool.
Variable resolver : string -> Exchange.

(** [await fetch(url, { signal })] against the timer of
    [setTimeout(() => controller.abort(), 3000)]: when the [await] is
    over, and with what.  [clearTimeout] follows at once, so that the
    timer can fire during the [await] only. *)
Definition fetch_with_signal (x : Exchange) : nat * exc BodyRead :=
  match x with
  | Answers delay read =>
      if timer_first tie delay then (timeout_ms, Throw AbortError) else (delay, Val read)
  | Fails delay e =>
      if timer_first tie delay then (timeout_ms, Throw AbortError) else (delay, Throw e)
  | Silent => (timeout_ms, Throw AbortError)
  end.

(** [await response.json()], for a response that arrived at [t]. *)
Definition json (t : nat) (response : BodyRead) : Settlement Json :=
  match response with
  | Arrives after body => SettlesAt (t + after) body
  | Stalls => Pending
  end.

Definition checkDomainAvailability (domain : string) : Settlement AvailabilityResult :=
  let catch (error : error) :=
    let availability :=
      if String.eqb (name error) "AbortError" then Timeout else Error in
    Val (mkResult domain availability) in
  let '(t, fetched) := fetch_with_signal (resolver domain) in
  match fetched with
  | Throw error => SettlesAt t (catch error)
  | Val response =>
      match json t response with
      | Pending => Pending
      | SettlesAt t read =>
          SettlesAt t
            (try_catch
               (data ← read;
                Status ← get "Status" data;
                if strict_eq_num Status 3
                then Val (mkResult domain Available)
                else Val (mkResult domain Unavailable))
               catch)
      end
  end.

End WithResolver.

(** The exchange of a request whose body read settles, [after]
    milliseconds after the response. *)
Definition settling (after : nat) (n : Network) : Exchange :=
  match n with
  | Responds delay body => Answers delay (Arrives after body)
  | Rejects delay e => Fails delay e
  | Hangs => Silent
  end.

End Timed.
(* ===================================================================== *)
(** * Theorems *)
(* ===================================================================== *)

Import Normalizer.

Example normalize_spec_example :
  normalizeDomain "https://www.Example.com/path?q=1" = "example.com".
Proof. reflexivity. Qed.

Example dedup_spec_example :
  Set_spread (map normalizeDomain ["a.com"; "A.com "; " a.com"]) = ["a.com"].
Proof. reflexivity. Qed.

Example checker_domains_example :
  checker_domains ("a.com" ++ String "010" ("  " ++ String "010" "www.b.io/x"))
  = ["a.com"; "b.io"].
Proof. reflexivity. Qed.

(* ===================================================================== *)
(** ** Properties of the normalizer *)
(* ===================================================================== *)

Section NormalizerFacts.

Lemma lower_char_lowered c : lowered (lower_char c) = true.
Proof. destruct c as [[] [] [] [] [] [] [] []]; reflexivity. Qed.

Lemma toLowerCase_lowered s : all_chars lowered (toLowerCase s) = true.
Proof.
  induction s as [|c r IH]; simpl; [reflexivity|].
  now rewrite lower_char_lowered, IH.
Qed.

Lemma toLowerCase_fixed s : all_chars lowered s = true -> toLowerCase s = s.
Proof.
  induction s as [|c r IH]; simpl; [reflexivity|].
  intros [Hc Hr]%andb_true_iff. unfold lowered in Hc.
  apply Ascii.eqb_eq in Hc. now rewrite Hc, IH.
Qed.

Lemma slice_from_all P n s :
  all_chars P s = true -> all_chars P (slice_from n s) = true.
Proof.
  revert s; induction n as [|n IH]; intros [|c r]; simpl; auto.
  intros [_ Hr]%andb_true_iff. now apply IH.
Qed.

Lemma strip_scheme_all P s :
  all_chars P s = true -> all_chars P (strip_scheme s) = true.
Proof.
  intros H. unfold strip_scheme.
  repeat case_match; auto using slice_from_all.
Qed.

Lemma strip_www_all P s :
  all_chars P s = true -> all_chars P (strip_www s) = true.
Proof.
  intros H. unfold strip_www. case_match; auto using slice_from_all.
Qed.

(** The first piece of [split] keeps the characters of the string and
    holds no separator. *)
Lemma split_hd_all P sep s :
  all_chars P s = true -> all_chars P (hd EmptyString (split sep s)) = true.
Proof.
  induction s as [|c r IH]; simpl; [reflexivity|].
  intros [Hc Hr]%andb_true_iff. specialize (IH Hr).
  destruct (Ascii.eqb c sep); [reflexivity|].
  destruct (split sep r) as [|h t]; simpl in *; rewrite Hc; auto.
Qed.

Lemma split_hd_no_sep sep s :
  all_chars (fun c => negb (Ascii.eqb c sep)) (hd EmptyString (split sep s)) = true.
Proof.
  induction s as [|c r IH]; simpl; [reflexivity|].
  destruct (Ascii.eqb c sep) eqn:E; [reflexivity|].
  destruct (split sep r) as [|h t]; simpl in *; rewrite E; auto.
Qed.

Lemma split_hd_fixed sep s :
  all_chars (fun c => negb (Ascii.eqb c sep)) s = true ->
  hd EmptyString (split sep s) = s.
Proof.
  induction s as [|c r IH]; simpl; [reflexivity|].
  intros [Hc Hr]%andb_true_iff. specialize (IH Hr).
  apply negb_true_iff in Hc. rewrite Hc.
  destruct (split sep r) as [|h t]; simpl in *; congruence.
Qed.

(** A string that starts with [p] holds every character of [p]. *)
Lemma startsWith_all P p s :
  startsWith p s = true -> all_chars P s = true -> all_chars P p = true.
Proof.
  revert s; induction p as [|a p IH]; intros [|b s]; simpl; try easy.
  destruct (Ascii.eqb a b) eqn:E; [|easy].
  apply Ascii.eqb_eq in E; subst b.
  intros Hp [Hb Hs]%andb_true_iff. rewrite Hb. simpl. eauto.
Qed.

Lemma strip_scheme_no_slash s :
  all_chars not_slash s = true -> strip_scheme s = s.
Proof.
  intros H. unfold strip_scheme.
  destruct (startsWith "https://" s) eqn:E1.
  { apply (startsWith_all not_slash) in E1; [discriminate E1|exact H]. }
  destruct (startsWith "http://" s) eqn:E2; [|reflexivity].
  apply (startsWith_all not_slash) in E2; [discriminate E2|exact H].
Qed.

Lemma normalizeDomain_lowered x : all_chars lowered (normalizeDomain x) = true.
Proof.
  unfold normalizeDomain, replace_prefix.
  apply split_hd_all, strip_www_all, strip_scheme_all, toLowerCase_lowered.
Qed.

Lemma normalizeDomain_no_slash x : all_chars not_slash (normalizeDomain x) = true.
Proof. unfold normalizeDomain. apply split_hd_no_sep. Qed.

(** Fixed points of the normalizer: a trimmed, lower-case string with no
    [www.] prefix and no slash is its own normal form. *)
Lemma normalizeDomain_fixed y :
  trim y = y -> all_chars lowered y = true ->
  all_chars not_slash y = true -> startsWith "www." y = false ->
  normalizeDomain y = y.
Proof.
  intros Ht Hl Hs Hw. unfold normalizeDomain, replace_prefix.
  rewrite Ht, (toLowerCase_fixed _ Hl), (strip_scheme_no_slash _ Hs).
  unfold strip_www. rewrite Hw. now apply split_hd_fixed.
Qed.

Lemma truthy_nonempty s : truthy s = true <-> s <> EmptyString.
Proof. destruct s; simpl; split; congruence. Qed.

Lemma trimEnd_idem s : trimEnd (trimEnd s) = trimEnd s.
Proof.
  induction s as [|c r IH]; simpl; [reflexivity|].
  destruct (trimEnd r) as [|c' r'] eqn:E.
  - destruct (is_space c) eqn:Ec; simpl; [reflexivity|now rewrite Ec].
  - simpl in IH |- *. now rewrite IH.
Qed.

Lemma trimStart_head s :
  match trimStart s with
  | EmptyString => True
  | String c _ => is_space c = false
  end.
Proof.
  induction s as [|c r IH]; simpl; [exact I|].
  destruct (is_space c) eqn:E; [exact IH|exact E].
Qed.

Lemma trimEnd_head s c r :
  trimEnd s = String c r -> exists r0, s = String c r0.
Proof.
  destruct s as [|c0 r0]; simpl; [discriminate|].
  destruct (trimEnd r0); [destruct (is_space c0)|]; intros [= <- _]; eauto.
Qed.

Lemma trimStart_fixed s :
  match s with EmptyString => True | String c _ => is_space c = false end ->
  trimStart s = s.
Proof. destruct s as [|c r]; simpl; [reflexivity|]. now intros ->. Qed.

(** [trim] is idempotent: what the input parsing hands to the normalizer
    is already trimmed. *)
Lemma trim_idem s : trim (trim s) = trim s.
Proof.
  unfold trim.
  assert (H : trimStart (trimEnd (trimStart s)) = trimEnd (trimStart s)).
  { apply trimStart_fixed.
    destruct (trimEnd (trimStart s)) as [|c r] eqn:E; [exact I|].
    apply trimEnd_head in E as [r0 E].
    pose proof (trimStart_head s) as Hh. now rewrite E in Hh. }
  rewrite H. apply trimEnd_idem.
Qed.

(** Lengths: no step of the normalizer makes the string longer, and a step
    that changes the string makes it shorter. *)
Lemma toLowerCase_length s : String.length (toLowerCase s) = String.length s.
Proof. induction s as [|c r IH]; simpl; congruence. Qed.

Lemma slice_from_length n s : String.length (slice_from n s) = String.length s - n.
Proof. revert s; induction n as [|n IH]; intros [|c r]; simpl; auto. Qed.

Lemma startsWith_length p s :
  startsWith p s = true -> String.length p <= String.length s.
Proof.
  revert s; induction p as [|a p IH]; intros [|b s]; simpl; try easy; [lia|].
  destruct (Ascii.eqb a b); [|easy]. intros H%IH. lia.
Qed.

Lemma strip_scheme_length s : String.length (strip_scheme s) <= String.length s.
Proof.
  unfold strip_scheme. repeat case_match; rewrite ?slice_from_length; lia.
Qed.

Lemma strip_www_length s : String.length (strip_www s) <= String.length s.
Proof. unfold strip_www. case_match; rewrite ?slice_from_length; lia. Qed.

Lemma split_hd_length sep s :
  String.length (hd EmptyString (split sep s)) <= String.length s.
Proof.
  induction s as [|c r IH]; simpl; [lia|].
  destruct (Ascii.eqb c sep); simpl; [lia|].
  destruct (split sep r) as [|h t]; simpl in *; lia.
Qed.

Lemma trimStart_length s :
  trimStart s = s \/ String.length (trimStart s) < String.length s.
Proof.
  induction s as [|c r IH]; simpl; [now left|].
  destruct (is_space c); [right|now left].
  destruct IH as [-> | IH]; lia.
Qed.

Lemma trimEnd_length s :
  trimEnd s = s \/ String.length (trimEnd s) < String.length s.
Proof.
  induction s as [|c r IH]; simpl; [now left|].
  destruct IH as [-> | IH].
  - destruct r as [|c' r']; [|now left].
    destruct (is_space c); [right; simpl; lia|now left].
  - right. destruct (trimEnd r) as [|c' r'].
    + destruct (is_space c); simpl in *; lia.
    + simpl in *. lia.
Qed.

Lemma trim_length s : trim s = s \/ String.length (trim s) < String.length s.
Proof.
  unfold trim. destruct (trimStart_length s) as [-> | H1]; [apply trimEnd_length|].
  right. destruct (trimEnd_length (trimStart s)) as [-> | H2]; lia.
Qed.

Lemma normalizeDomain_length s :
  String.length (normalizeDomain s) <= String.length (trim s).
Proof.
  unfold normalizeDomain, replace_prefix.
  etransitivity; [apply split_hd_length|].
  etransitivity; [apply strip_www_length|].
  etransitivity; [apply strip_scheme_length|].
  now rewrite toLowerCase_length.
Qed.

(** The two conditions on a normal form are needed: a normal form that is
    its own normal form is trimmed and has no [www.] in front. *)
Lemma normalizeDomain_fixed_inv x :
  normalizeDomain (normalizeDomain x) = normalizeDomain x ->
  trim (normalizeDomain x) = normalizeDomain x /\
  startsWith "www." (normalizeDomain x) = false.
Proof.
  set (y := normalizeDomain x). intros Hfix.
  assert (Ht : trim y = y).
  { destruct (trim_length y) as [H|H]; [exact H|].
    pose proof (normalizeDomain_length y) as Hl. rewrite Hfix in Hl. lia. }
  split; [exact Ht|].
  destruct (startsWith "www." y) eqn:Hw; [|reflexivity].
  assert (Hlen : String.length (normalizeDomain y) < String.length y); [|rewrite Hfix in Hlen; lia].
  unfold normalizeDomain at 1, replace_prefix.
  rewrite Ht, (toLowerCase_fixed y (normalizeDomain_lowered x)).
  rewrite (strip_scheme_no_slash y (normalizeDomain_no_slash x)).
  unfold strip_www. rewrite Hw.
  eapply Nat.le_lt_trans; [apply split_hd_length|].
  rewrite slice_from_length. apply startsWith_length in Hw. simpl in Hw. lia.
Qed.

End NormalizerFacts.

(* ===================================================================== *)
(** ** Sets in insertion order *)
(* ===================================================================== *)

Section SetSpread.

Lemma Set_add_elem acc x y : y ∈ Set_add acc x <-> y ∈ acc \/ y = x.
Proof.
  unfold Set_add. case_bool_decide as Hx.
  - split; [auto|]. intros [H| ->]; assumption.
  - rewrite elem_of_app, list_elem_of_singleton. reflexivity.
Qed.

Lemma Set_add_NoDup acc x : NoDup acc -> NoDup (Set_add acc x).
Proof.
  intros Hnd. unfold Set_add. case_bool_decide as Hx; [assumption|].
  apply NoDup_app. split; [assumption|]. split.
  - intros y Hy ->%list_elem_of_singleton. contradiction.
  - apply NoDup_singleton.
Qed.

Lemma fold_Set_add_elem l acc y :
  y ∈ fold_left Set_add l acc <-> y ∈ acc \/ y ∈ l.
Proof.
  revert acc; induction l as [|x l IH]; intros acc; simpl.
  - rewrite elem_of_nil. tauto.
  - rewrite IH, Set_add_elem, elem_of_cons. tauto.
Qed.

Lemma fold_Set_add_NoDup l acc : NoDup acc -> NoDup (fold_left Set_add l acc).
Proof.
  revert acc; induction l as [|x l IH]; intros acc Hnd; simpl; [assumption|].
  apply IH, Set_add_NoDup, Hnd.
Qed.

Lemma Set_spread_elem l y : y ∈ Set_spread l <-> y ∈ l.
Proof.
  unfold Set_spread. rewrite fold_Set_add_elem, elem_of_nil. tauto.
Qed.

Lemma Set_spread_NoDup l : NoDup (Set_spread l).
Proof. apply fold_Set_add_NoDup, NoDup_nil_2. Qed.

(** A list without duplicates comes back as it is: first-seen order. *)
Lemma fold_Set_add_fresh l acc :
  NoDup (acc ++ l) -> fold_left Set_add l acc = (acc ++ l)%list.
Proof.
  revert acc; induction l as [|x l IH]; intros acc Hnd; simpl.
  - now rewrite app_nil_r.
  - assert (Hx : x ∉ acc).
    { apply NoDup_app in Hnd as (_ & Hd & _). intros Hin.
      apply (Hd x Hin). left. }
    unfold Set_add at 2. rewrite bool_decide_eq_false_2 by assumption.
    rewrite IH; rewrite <- app_assoc; simpl; [reflexivity|assumption].
Qed.

Lemma Set_spread_NoDup_id l : NoDup l -> Set_spread l = l.
Proof. intros H. unfold Set_spread. now rewrite fold_Set_add_fresh. Qed.

End SetSpread.

(* ===================================================================== *)
(** ** Claims about the normalizer *)
(* ===================================================================== *)

(** Every line handed to the normalizer by the checker-mode parsing is
    non-empty and trimmed. *)
Lemma rawDomains_spec value d :
  d ∈ rawDomains value -> d <> EmptyString /\ trim d = d.
Proof.
  unfold rawDomains. rewrite list_elem_of_filter, list_elem_of_fmap.
  intros [Ht (raw & -> & _)]. split.
  - now apply truthy_nonempty.
  - apply trim_idem.
Qed.

(** C6, as stated, fails: the pattern removes one [www.] only, so the
    normal form of [www.www.a.com] is [www.a.com], whose normal form is
    [a.com]; and cutting the path can uncover white space, which the next
    pass trims. *)
Lemma normalize_not_idempotent :
  normalizeDomain "www.www.a.com" = "www.a.com" /\
  normalizeDomain (normalizeDomain "www.www.a.com") = "a.com" /\
  normalizeDomain (normalizeDomain "www.www.a.com") <> normalizeDomain "www.www.a.com" /\
  normalizeDomain "a /b" = "a " /\
  normalizeDomain (normalizeDomain "a /b") <> normalizeDomain "a /b".
Proof. repeat split; discriminate. Qed.

(** C6, amended: [normalizeDomain (normalizeDomain x) = normalizeDomain x]
    holds for the inputs whose normal form has no white space around it and
    does not start with [www.], and for no other input. *)
Theorem normalize_idempotent_on_stable x :
  normalizeDomain (normalizeDomain x) = normalizeDomain x <->
  trim (normalizeDomain x) = normalizeDomain x /\
  startsWith "www." (normalizeDomain x) = false.
Proof.
  split; [apply normalizeDomain_fixed_inv|].
  intros [Ht Hw]. apply normalizeDomain_fixed; auto.
  - apply normalizeDomain_lowered.
  - apply normalizeDomain_no_slash.
Qed.

Lemma normalize_idempotent_on_stable_witness :
  normalizeDomain (normalizeDomain "https://www.Example.com/path?q=1")
  = normalizeDomain "https://www.Example.com/path?q=1".
Proof.
  apply (proj2 (normalize_idempotent_on_stable "https://www.Example.com/path?q=1")).
  split; reflexivity.
Defined.

(** C7, as stated, fails: the parsing drops empty lines before it
    normalizes, not empty normal forms; the line [http://] is kept, its
    normal form is empty, and the list is not taken for empty. *)
Lemma empty_token_reaches_domains :
  checker_domains "http://" = [EmptyString] /\
  EmptyString ∈ checker_domains "http://" /\
  (length (checker_domains "http://") =? 0)%nat = false.
Proof. repeat split. left. Qed.

(** C7, amended: [normalizeDomain] is a total function (the empty string
    is mapped to itself), and every token of the checked list is the normal
    form of a line of the input that is non-empty and trimmed; the checked
    list has no duplicates. *)
Theorem checker_domains_from_nonempty_lines value d :
  d ∈ checker_domains value ->
  (exists raw, raw ∈ rawDomains value /\ raw <> EmptyString /\ trim raw = raw /\
               d = normalizeDomain raw) /\
  NoDup (checker_domains value) /\
  normalizeDomain EmptyString = EmptyString.
Proof.
  unfold checker_domains. rewrite Set_spread_elem, list_elem_of_fmap.
  intros (raw & -> & Hraw). split; [|split; [apply Set_spread_NoDup|reflexivity]].
  exists raw. destruct (rawDomains_spec _ _ Hraw). auto.
Qed.

Lemma checker_domains_from_nonempty_lines_witness :
  (exists raw, raw ∈ rawDomains " WWW.a.com/x " /\ raw <> EmptyString /\
               trim raw = raw /\ "a.com" = normalizeDomain raw) /\
  NoDup (checker_domains " WWW.a.com/x ") /\
  normalizeDomain EmptyString = EmptyString.
Proof.
  apply (checker_domains_from_nonempty_lines " WWW.a.com/x " "a.com").
  vm_compute. left.
Defined.

(* ===================================================================== *)
(** ** [Promise.all] does not depend on the completion order *)
(* ===================================================================== *)

Section PromiseAll.
Import Exc Promise.
Context {A : Type}.
Implicit Types (vs : list A) (completion : list nat) (slots : list (option A)).

Lemma settle_fulfilled vs completion slots :
  length slots = length vs ->
  exists slots',
    settle (Val <$> vs) completion slots = Val slots' /\
    length slots' = length vs /\
    forall i, slots' !! i =
      if bool_decide (i ∈ completion /\ i < length vs)
      then Some <$> vs !! i else slots !! i.
Proof.
  revert slots; induction completion as [|index rest IH]; intros slots Hlen; simpl.
  - exists slots. split; [reflexivity|]. split; [assumption|]. intros i.
    reflexivity.
  - rewrite list_lookup_fmap. destruct (vs !! index) as [x|] eqn:Hx; simpl.
    + apply lookup_lt_Some in Hx as Hlt.
      destruct (IH (<[index := Some x]> slots)) as (slots' & Hs & Hl & Hi).
      { now rewrite length_insert. }
      exists slots'. split; [assumption|]. split; [assumption|].
      intros i. rewrite Hi.
      destruct (decide (i ∈ rest /\ i < length vs)) as [Hin|Hnin].
      * rewrite !bool_decide_eq_true_2; [reflexivity| |assumption].
        split; [right|]; tauto.
      * rewrite (bool_decide_eq_false_2 _ Hnin).
        destruct (decide (i = index)) as [->|Hne].
        -- rewrite bool_decide_eq_true_2 by (split; [left|assumption]).
           rewrite list_lookup_insert_eq by lia. now rewrite Hx.
        -- rewrite list_lookup_insert_ne by congruence.
           rewrite bool_decide_eq_false_2; [reflexivity|].
           rewrite elem_of_cons. tauto.
    + apply lookup_ge_None in Hx.
      destruct (IH slots Hlen) as (slots' & Hs & Hl & Hi).
      exists slots'. split; [assumption|]. split; [assumption|].
      intros i. rewrite Hi.
      rewrite (bool_decide_ext (i ∈ index :: rest /\ i < length vs)
                 (i ∈ rest /\ i < length vs)); [reflexivity|].
      rewrite elem_of_cons.
      split; [|tauto]. intros [[->|?] ?]; [lia|tauto].
Qed.

(** When every promise is fulfilled and every one settles, the result is
    the list of their values in the order of the promises. *)
Lemma all_fulfilled vs completion :
  complete_order (length vs) completion ->
  Promise.all (Val <$> vs) completion = Some (Val vs).
Proof.
  intros Hperm. unfold Promise.all. rewrite length_fmap.
  destruct (settle_fulfilled vs completion (replicate (length vs) None))
    as (slots' & -> & Hl & Hi).
  { apply length_replicate. }
  assert (Hslots : slots' = Some <$> vs).
  { apply list_eq. intros i. rewrite Hi, list_lookup_fmap.
    destruct (decide (i < length vs)) as [Hlt|Hge].
    - rewrite bool_decide_eq_true_2; [reflexivity|]. split; [|assumption].
      unfold complete_order in Hperm. rewrite Hperm. apply elem_of_seq. lia.
    - rewrite bool_decide_eq_false_2 by tauto.
      rewrite (proj1 (lookup_replicate_None _ _ _)) by lia.
      now rewrite (proj2 (lookup_ge_None vs i)) by lia. }
  rewrite Hslots. now rewrite mapM_fmap_Some.
Qed.

End PromiseAll.

(* ===================================================================== *)
(** ** The prober *)
(* ===================================================================== *)

Section ProberFacts.
Import Exc Json Prober.
Variable tie : bool.
Variable resolver : string -> Network.

(** Every path of [checkDomainAvailability] ends in a result for the
    domain it was given. *)
Lemma checkDomainAvailability_total d :
  exists s, checkDomainAvailability tie resolver d = Val (mkResult d s).
Proof.
  unfold checkDomainAvailability.
  destruct (fetch_with_signal tie (resolver d)) as [[data|e]|e]; simpl;
    [|eexists; reflexivity..].
  destruct (get "Status" data) as [Status|e]; simpl; [|eexists; reflexivity].
  destruct (strict_eq_num Status 3); eexists; reflexivity.
Qed.

Lemma probes_fulfilled ds :
  exists rs, map (checkDomainAvailability tie resolver) ds = Val <$> rs /\
             map domain rs = ds.
Proof.
  induction ds as [|d ds (rs & Hrs & Hd)]; [exists []; split; reflexivity|].
  destruct (checkDomainAvailability_total d) as [s Hs].
  exists (mkResult d s :: rs). simpl. now rewrite Hs, Hrs, Hd.
Qed.

End ProberFacts.

Example probe_nxdomain :
  Prober.checkDomainAvailability false
    (fun _ => Prober.Responds 40 (Exc.Val (Json.JObj [("Status", Json.JNum 3)])))
    "foo.com"
  = Exc.Val (Prober.mkResult "foo.com" Prober.Available).
Proof. reflexivity. Qed.

Example probe_registered :
  Prober.checkDomainAvailability false
    (fun _ => Prober.Responds 40
                (Exc.Val (Json.JObj [("Status", Json.JNum 0); ("Answer", Json.JArr [])])))
    "bar.io"
  = Exc.Val (Prober.mkResult "bar.io" Prober.Unavailable).
Proof. reflexivity. Qed.


Section TimedFacts.
Import Exc Json Prober Timed.
Variable tie : bool.

(** For a request whose body read settles, the promise of the probe
    settles to what [Prober.checkDomainAvailability] gives, whatever the
    time the body takes. *)
Lemma timed_settles_to (resolver : string -> Network) (after : nat) (d : string) :
  exists t,
    Timed.checkDomainAvailability tie (fun x => settling after (resolver x)) d
    = SettlesAt t (Prober.checkDomainAvailability tie resolver d).
Proof.
  unfold Timed.checkDomainAvailability, Prober.checkDomainAvailability,
    Timed.fetch_with_signal, Prober.fetch_with_signal, settling.
  destruct (resolver d) as [delay body|delay e|]; cbn;
    try destruct (timer_first tie delay); cbn; eauto.
Qed.

End TimedFacts.




(* ===================================================================== *)
(** ** The check endpoints *)
(* ===================================================================== *)

Section Endpoints.
Import Exc Json Prober Http.
Variable tie : bool.
Variable resolver : string -> Network.

(** Running the prober over a list with [Promise.all]: one result per
    domain, in the order of the list, whatever the completion order. *)
Lemma all_probes ds completion :
  Promise.complete_order (length ds) completion ->
  exists rs,
    Promise.all (map (checkDomainAvailability tie resolver) ds) completion
    = Some (Val rs) /\
    map domain rs = ds.
Proof.
  intros Hc. destruct (probes_fulfilled tie resolver ds) as (rs & Hrs & Hd).
  exists rs. split; [|assumption]. rewrite Hrs. apply all_fulfilled.
  now rewrite <- Hd, length_map in Hc.
Qed.

(** The handler of [check-domain.js] on a POST with a non-empty list. *)
Lemma check_domain_handler_results completion (req : Request) body ds :
  method req = "POST" -> json req = Val body -> domains body = Some ds -> ds <> [] ->
  Promise.complete_order (length ds) completion ->
  exists rs,
    CheckDomain.handler tie resolver completion req
    = Some (mkResponse 200 (Results rs)) /\
    map domain rs = ds.
Proof.
  intros Hm Hj Hd Hne Hc.
  destruct (all_probes ds completion Hc) as (rs & Hall & Hrs).
  exists rs. split; [|assumption].
  unfold CheckDomain.handler. rewrite Hm, Hj, Hd. simpl.
  destruct ds as [|d ds']; [congruence|]. now rewrite Hall.
Qed.

End Endpoints.

(** C10: a POST whose body carries a non-empty [domains] array is answered
    with status 200 and one entry per input domain, in input order, each
    with the [domain] it was asked for, whatever the order in which the
    probes settle.  This holds for the handler of [check-domain.js] and,
    when [API_KEY] is set, for the [check] mode of the orchestrator. *)
Theorem check_endpoint_preserves_order
    (tie : bool) (resolver : string -> Prober.Network) (completion : list nat)
    (API_KEY : option string) (generateContent : Exc.exc (option string))
    (req : Http.Request) (body : Http.Body) (ds : list string) :
  Http.method req = "POST" ->
  Http.json req = Exc.Val body ->
  Http.domains body = Some ds ->
  ds <> [] ->
  Promise.complete_order (length ds) completion ->
  (exists rs,
      CheckDomain.handler tie resolver completion req
      = Some (Http.mkResponse 200 (Http.Results rs)) /\
      map Prober.domain rs = ds /\ length rs = length ds) /\
  (Http.falsy API_KEY = false ->
   Http.mode body = Some "check" ->
   exists rs,
     Orchestrator.handler tie resolver completion API_KEY generateContent req
     = Some (Http.mkResponse 200 (Http.Results rs)) /\
     map Prober.domain rs = ds /\ length rs = length ds).
Proof.
  intros Hm Hj Hd Hne Hc.
  destruct (all_probes tie resolver ds completion Hc) as (rs & Hall & Hrs).
  assert (Hlen : length rs = length ds) by now rewrite <- Hrs, length_map.
  split.
  - destruct (check_domain_handler_results tie resolver completion req body ds)
      as (rs' & Hh & Hrs'); auto.
    exists rs'. split; [exact Hh|]. split; [exact Hrs'|].
    now rewrite <- Hrs', length_map.
  - intros Hkey Hmode. exists rs. split; [|auto].
    unfold Orchestrator.handler, Orchestrator.dispatch.
    rewrite Hm, Hkey, Hj. simpl. rewrite Hmode, Hd. now rewrite Hall.
Qed.

Lemma check_endpoint_preserves_order_witness :
  let resolver := fun d : string =>
    if String.eqb d "foo.com"
    then Prober.Responds 900 (Exc.Val (Json.JObj [("Status", Json.JNum 3)]))
    else Prober.Responds 20 (Exc.Val (Json.JObj [("Status", Json.JNum 0)])) in
  let body := Http.mkBody (Some "check") (Some ["foo.com"; "bar.io"]) None None in
  let req := Http.mkRequest "POST" (Exc.Val body) in
  (exists rs,
      CheckDomain.handler false resolver [1; 0] req
      = Some (Http.mkResponse 200 (Http.Results rs)) /\
      map Prober.domain rs = ["foo.com"; "bar.io"] /\ length rs = 2) /\
  (Http.falsy (Some "key") = false ->
   Http.mode body = Some "check" ->
   exists rs,
     Orchestrator.handler false resolver [1; 0] (Some "key") (Exc.Val None) req
     = Some (Http.mkResponse 200 (Http.Results rs)) /\
     map Prober.domain rs = ["foo.com"; "bar.io"] /\ length rs = 2).
Proof.
  intros resolver body req.
  apply (check_endpoint_preserves_order false resolver [1; 0] (Some "key")
           (Exc.Val None) req body ["foo.com"; "bar.io"]);
    try reflexivity; [discriminate|].
  unfold Promise.complete_order. simpl. apply perm_swap.
Defined.

Example check_endpoint_run :
  CheckDomain.handler false
    (fun d : string =>
       if String.eqb d "foo.com"
       then Prober.Responds 900 (Exc.Val (Json.JObj [("Status", Json.JNum 3)]))
       else Prober.Responds 20 (Exc.Val (Json.JObj [("Status", Json.JNum 0)])))
    [1; 0]
    (Http.mkRequest "POST"
       (Exc.Val (Http.mkBody None (Some ["foo.com"; "bar.io"]) None None)))
  = Some (Http.mkResponse 200
            (Http.Results [Prober.mkResult "foo.com" Prober.Available;
                           Prober.mkResult "bar.io" Prober.Unavailable])).
Proof. reflexivity. Qed.

(* ===================================================================== *)
(** ** The XML registrar backend *)
(* ===================================================================== *)

(** C9, as stated, fails: when the call to the registrar fails, the handler
    answers 500 with an error body and no result for the domain; an empty
    list is answered 400. *)
Lemma namecheap_no_results_on_failure :
  let down := fun _ : list string => Exc.Throw (Exc.TypeError "fetch failed") in
  let ok := fun _ : list string => Exc.Val EmptyString in
  let post ds := Namecheap.mkRequest "POST" (Some (Http.mkBody None (Some ds) None None)) in
  Namecheap.handler (Some "user") (Some "key") down (post ["a.com"])
  = Exc.Val (Http.mkResponse 500 (Http.ErrorBody "Failed to check domains.")) /\
  Namecheap.handler (Some "user") (Some "key") ok (post [])
  = Exc.Val (Http.mkResponse 400 (Http.ErrorBody "Domains must be a non-empty array.")) /\
  ~ (exists rs,
        Namecheap.handler (Some "user") (Some "key") down (post ["a.com"])
        = Exc.Val (Http.mkResponse 200 (Http.Results rs))).
Proof.
  intros down ok post. split; [reflexivity|]. split; [reflexivity|].
  intros [rs H]. discriminate H.
Qed.

(** C9, amended: a POST with a body is answered without an exception,
    whatever the registrar call does.  With a non-empty [domains] array,
    the credentials set and a registrar call that yields a body, the
    answer is 200 with one result per input domain, in input order; a
    domain is [Available] exactly when the body contains the text
    [<DomainCheckResult Domain=(dq)domain(dq) Available=(dq)true(dq)], and
    [Unavailable] otherwise.  A registrar call that fails is answered 500
    with an error body and no result; a missing or empty list is answered
    400 and missing credentials 500, with an error body too. *)
Theorem namecheap_results
    (API_USER API_KEY : option string) (fetch_text : list string -> Exc.exc string)
    (request : Namecheap.Request) (b : Http.Body) :
  Namecheap.method request = "POST" ->
  Namecheap.body request = Some b ->
  (exists response,
      Namecheap.handler API_USER API_KEY fetch_text request = Exc.Val response) /\
  (Http.domains b = None \/ Http.domains b = Some [] ->
   Namecheap.handler API_USER API_KEY fetch_text request
   = Exc.Val (Http.mkResponse 400 (Http.ErrorBody "Domains must be a non-empty array."))) /\
  (forall ds,
      Http.domains b = Some ds -> ds <> [] ->
      (Http.falsy API_USER = true \/ Http.falsy API_KEY = true ->
       Namecheap.handler API_USER API_KEY fetch_text request
       = Exc.Val (Http.mkResponse 500 (Http.ErrorBody "Server configuration error."))) /\
      (Http.falsy API_USER = false -> Http.falsy API_KEY = false ->
       (forall e,
           fetch_text ds = Exc.Throw e ->
           Namecheap.handler API_USER API_KEY fetch_text request
           = Exc.Val (Http.mkResponse 500 (Http.ErrorBody "Failed to check domains."))) /\
       (forall xmlText,
           fetch_text ds = Exc.Val xmlText ->
           exists rs,
             Namecheap.handler API_USER API_KEY fetch_text request
             = Exc.Val (Http.mkResponse 200 (Http.Results rs)) /\
             map Prober.domain rs = ds /\
             Forall (fun r =>
               (Prober.availability r = Prober.Available <->
                Http.includes (Namecheap.needle (Prober.domain r)) xmlText = true) /\
               (Prober.availability r = Prober.Unavailable <->
                Http.includes (Namecheap.needle (Prober.domain r)) xmlText = false)) rs))).
Proof.
  intros Hm Hb. unfold Namecheap.handler. rewrite Hm, Hb. cbn [String.eqb negb].
  change (String.eqb "POST" "OPTIONS") with false.
  change (String.eqb "POST" "POST") with true. cbn [negb].
  split; [|split].
  - destruct (Http.domains b) as [[|d ds]|]; [eauto|..|eauto].
    destruct (Http.falsy API_USER || Http.falsy API_KEY); [eauto|].
    destruct (fetch_text (d :: ds)); cbn; eauto.
  - intros [-> | ->]; reflexivity.
  - intros ds -> Hne. destruct ds as [|d ds]; [congruence|]. split.
    + intros Hcred.
      assert (Hor : Http.falsy API_USER || Http.falsy API_KEY = true).
      { apply orb_true_iff. exact Hcred. }
      now rewrite Hor.
    + intros Hu Hk. rewrite Hu, Hk. cbn [orb]. split.
      * intros e ->. reflexivity.
      * intros xmlText ->. exists (map (Namecheap.classify xmlText) (d :: ds)).
        split; [reflexivity|]. split.
        -- rewrite map_map. cbn [Namecheap.classify Prober.domain]. apply map_id.
        -- apply Forall_forall. intros r [d' [-> _]]%list_elem_of_fmap.
           unfold Namecheap.classify. cbn [Prober.domain Prober.availability].
           destruct (Http.includes (Namecheap.needle d') xmlText); split; split;
             congruence.
Qed.

Lemma namecheap_results_witness :
  let xmlText :=
    Namecheap.needle "a.com" ++ " /><DomainCheckResult Domain=" ++ dq ++ "b.com" ++ dq
    ++ " Available=" ++ dq ++ "false" ++ dq ++ " />" in
  let b := Http.mkBody None (Some ["a.com"; "b.com"]) None None in
  let request := Namecheap.mkRequest "POST" (Some b) in
  (exists rs,
      Namecheap.handler (Some "user") (Some "key") (fun _ => Exc.Val xmlText) request
      = Exc.Val (Http.mkResponse 200 (Http.Results rs)) /\
      map Prober.domain rs = ["a.com"; "b.com"] /\
      Forall (fun r =>
        (Prober.availability r = Prober.Available <->
         Http.includes (Namecheap.needle (Prober.domain r)) xmlText = true) /\
        (Prober.availability r = Prober.Unavailable <->
         Http.includes (Namecheap.needle (Prober.domain r)) xmlText = false)) rs) /\
  Namecheap.handler (Some "user") (Some "key")
    (fun _ => Exc.Throw (Exc.TypeError "fetch failed")) request
  = Exc.Val (Http.mkResponse 500 (Http.ErrorBody "Failed to check domains.")).
Proof.
  intros xmlText b request. split.
  - destruct (namecheap_results (Some "user") (Some "key") (fun _ => Exc.Val xmlText)
                request b eq_refl eq_refl) as (_ & _ & H).
    destruct (H ["a.com"; "b.com"] eq_refl) as [_ H']; [discriminate|].
    destruct (H' eq_refl eq_refl) as [_ Hok]. apply (Hok xmlText). reflexivity.
  - destruct (namecheap_results (Some "user") (Some "key")
                (fun _ => Exc.Throw (Exc.TypeError "fetch failed"))
                request b eq_refl eq_refl) as (_ & _ & H).
    destruct (H ["a.com"; "b.com"] eq_refl) as [_ H']; [discriminate|].
    destruct (H' eq_refl eq_refl) as [Hfail _].
    apply (Hfail (Exc.TypeError "fetch failed")). reflexivity.
Defined.

Example namecheap_run :
  Namecheap.handler (Some "user") (Some "key")
    (fun _ => Exc.Val
       (Namecheap.needle "a.com" ++ " /><DomainCheckResult Domain=" ++ dq ++ "b.com"
        ++ dq ++ " Available=" ++ dq ++ "false" ++ dq ++ " />"))
    (Namecheap.mkRequest "POST"
       (Some (Http.mkBody None (Some ["a.com"; "b.com"]) None None)))
  = Exc.Val (Http.mkResponse 200
               (Http.Results [Prober.mkResult "a.com" Prober.Available;
                              Prober.mkResult "b.com" Prober.Unavailable])).
Proof. reflexivity. Qed.

(* ===================================================================== *)
(** ** Generator and categorizer *)
(* ===================================================================== *)

Section GeneratorFacts.
Import Exc Json Http.

Lemma parse_lines_nonempty text ls d :
  parse_lines text = Val ls -> d ∈ ls -> d <> EmptyString.
Proof.
  destruct text as [t|]; simpl; [|discriminate]. intros [= <-].
  rewrite list_elem_of_filter. intros [Ht _]. now apply truthy_nonempty.
Qed.

(** [generateDomainIdeas] catches everything: it returns the parsed lines
    or, when the call or the parsing fails, the empty list. *)
Lemma generateDomainIdeas_spec env :
  Client.generateDomainIdeas env =
    match Client.generated env with
    | Val (Some t) => Val (filter (fun d => truthy d = true) (split "010" (trim t)))
    | _ => Val []
    end.
Proof.
  unfold Client.generateDomainIdeas.
  destruct (Client.generated env) as [[t|]|e]; reflexivity.
Qed.

(** On an upstream failure the click handler stops before the loop. *)
Lemma generator_failure_ends_run JSON_parse copy_cat_buttons B env ui e :
  Client.currentMode ui = Client.generator ->
  Client.generated env = Throw e ->
  Client.analyze JSON_parse copy_cat_buttons B env ui
  = Some (Client.mkReport Client.NothingGenerated None) \/
  exists msg, Client.analyze JSON_parse copy_cat_buttons B env ui
              = Some (Client.mkReport (Client.Alerted msg) None).
Proof.
  intros Hm He. unfold Client.analyze. rewrite Hm.
  destruct (negb (truthy (Client.keywordsInput ui))
            || negb (truthy (Client.tldsInput ui))); [right; eauto|].
  left. rewrite generateDomainIdeas_spec, He. reflexivity.
Qed.

(** The generator step of the streaming handler removes duplicates and
    keeps the first occurrences in order. *)
Lemma stream_generate_step_dedup gen body w ds :
  Stream.generate_step gen body = (w, Val ds) ->
  mode body = Some "generator" ->
  NoDup ds /\
  exists ls, (genResponse ← gen; parse_lines genResponse) = Val ls /\
             ds = Set_spread ls /\ forall d, d ∈ ds <-> d ∈ ls.
Proof.
  unfold Stream.generate_step. intros H Hm. rewrite Hm in H.
  destruct (falsy (keywords body) || falsy (tlds body)); [discriminate|].
  destruct (genResponse ← gen; parse_lines genResponse) as [ls|e]; [|discriminate].
  injection H as _ <-. split; [apply Set_spread_NoDup|].
  exists ls. repeat split; try apply Set_spread_elem; apply Set_spread_elem.
Qed.

End GeneratorFacts.

(** C8: [generateDomainIdeas] of [src/index.js] splits on line breaks and
    drops empty lines but keeps duplicates, and the click handler checks
    the list as it is; the generator step of the streaming handler, given
    the same text, removes them. *)
Theorem generateDomainIdeas_keeps_duplicates :
  let text := "a.com" ++ String "010" "a.com" in
  Client.generateDomainIdeas
    (Client.mkEnv (Exc.Val (Some text)) (fun _ => false)
       (fun _ _ => Exc.Val (Http.mkResponse 200 (Http.Results []))) (Exc.Val None))
  = Exc.Val ["a.com"; "a.com"] /\
  Stream.generate_step (Exc.Val (Some text))
    (Http.mkBody (Some "generator") None (Some "shop") (Some ".com"))
  = ([Stream.ev_status "Generating domain ideas...";
      Stream.ev_generated_domains ["a.com"]],
     Exc.Val ["a.com"]).
Proof. split; reflexivity. Qed.

Section CategorizerFacts.
Import Exc Json Http.
Variable JSON_parse : string -> option Json.

(** [categorizeDomains] never throws. *)
Lemma categorizeDomains_total env ds :
  exists v, Client.categorizeDomains JSON_parse env ds = Val v.
Proof.
  unfold Client.categorizeDomains. destruct (length ds =? 0)%nat; [eauto|].
  destruct (Client.categorized env) as [[t|]|e]; simpl; eauto.
  destruct (JSON_parse _); simpl; eauto.
Qed.

(** The single group of the fallback is displayed without an exception
    when the page then holds no copy button besides the group's own. *)
Lemma displayResults_fallback copy_cat_buttons ds :
  copy_cat_buttons (Client.fallback_groups ds) <= 1 ->
  Client.displayResults copy_cat_buttons (Client.fallback_groups ds) ds = Val tt.
Proof.
  intros Hb. unfold Client.displayResults, Client.fallback_groups in *.
  cbn -[Nat.leb]. now rewrite (proj2 (Nat.leb_le _ _) Hb).
Qed.

End CategorizerFacts.

(** C5, as stated, fails: a response that parses, but not to an array of
    groups, is returned as it is, with no fallback; displaying it throws
    and the run ends as failed. *)
Lemma categorizer_keeps_parsed_value :
  let JSON_parse := fun s : string =>
    if String.eqb s "{}" then Some (Json.JObj []) else None in
  let env := Client.mkEnv (Exc.Val None) (fun _ => false)
               (fun _ batch =>
                  Exc.Val (Http.mkResponse 200
                             (Http.Results
                                (map (fun d => Prober.mkResult d Prober.Available) batch))))
               (Exc.Val (Some "{}")) in
  Client.categorizeDomains JSON_parse env ["a.com"; "b.com"] = Exc.Val (Json.JObj []) /\
  Client.categorizeDomains JSON_parse env ["a.com"; "b.com"]
  <> Exc.Val (Client.fallback_groups ["a.com"; "b.com"]) /\
  exists e,
    Client.outcome <$> Client.run_checks JSON_parse (fun _ => 0) 50 env ["a.com"; "b.com"]
    = Some (Client.Failed e) /\
    Exc.name e = "TypeError".
Proof.
  intros JSON_parse env. split; [reflexivity|]. split; [discriminate|].
  eexists. split; reflexivity.
Qed.

(** C5, amended: for a non-empty list, [categorizeDomains] never throws.
    When the categorization call fails, yields no text, or yields a text
    that [JSON.parse] rejects (after the fences are stripped), it returns
    the single group labeled [Available Domains] holding the input list in
    input order, and the click handler completes with that group (the page
    holding no copy button besides the group's own).  A text that parses
    is returned as parsed, whatever its shape. *)
Theorem categorizer_fallback
    (JSON_parse : string -> option Json.Json) (copy_cat_buttons : Json.Json -> nat)
    (env : Client.Env) (ds : list string) :
  ds <> [] ->
  (exists v, Client.categorizeDomains JSON_parse env ds = Exc.Val v) /\
  ((exists e, Client.categorized env = Exc.Throw e) \/
   Client.categorized env = Exc.Val None \/
   (exists t, Client.categorized env = Exc.Val (Some t) /\
              JSON_parse (Client.strip_fences (trim t)) = None) ->
   Client.categorizeDomains JSON_parse env ds
   = Exc.Val (Json.JArr [Json.JObj [("category", Json.JStr "Available Domains");
                                    ("domains", Json.JArr (map Json.JStr ds))]]) /\
   (copy_cat_buttons (Client.fallback_groups ds) <= 1 ->
    forall st,
      Client.isCancelled st = false ->
      Client.allAvailableDomains st = ds ->
      Client.after_loop JSON_parse copy_cat_buttons env Client.Finished st
      = Client.Completed ds (Client.fallback_groups ds))) /\
  (forall t v,
      Client.categorized env = Exc.Val (Some t) ->
      JSON_parse (Client.strip_fences (trim t)) = Some v ->
      Client.categorizeDomains JSON_parse env ds = Exc.Val v).
Proof.
  intros Hne. split; [apply categorizeDomains_total|]. split.
  - intros Hfail.
    assert (Hcat : Client.categorizeDomains JSON_parse env ds
                   = Exc.Val (Client.fallback_groups ds)).
    { unfold Client.categorizeDomains.
      destruct ds as [|d ds']; [congruence|]. simpl.
      destruct Hfail as [[e ->] | [-> | (t & -> & Hp)]]; simpl; try reflexivity.
      now rewrite Hp. }
    split; [exact Hcat|].
    intros Hb st Hc Hds. unfold Client.after_loop. rewrite Hc, Hds, Hcat.
    cbn [mbind Exc.exc_bind]. rewrite (displayResults_fallback _ _ Hb).
    destruct ds; [congruence|reflexivity].
  - intros t v Ht Hp. unfold Client.categorizeDomains, Client.safeJsonParse.
    destruct ds as [|d ds']; [congruence|]. simpl. rewrite Ht. simpl. now rewrite Hp.
Qed.

Lemma categorizer_fallback_witness :
  let env := Client.mkEnv (Exc.Val None) (fun _ => false)
               (fun _ _ => Exc.Val (Http.mkResponse 200 (Http.Results [])))
               (Exc.Val (Some "Sorry, I cannot do that.")) in
  let JSON_parse := fun s : string =>
    if String.eqb s "[]" then Some (Json.JArr []) else None in
  Client.categorizeDomains JSON_parse env ["a.com"; "b.com"]
  = Exc.Val (Json.JArr [Json.JObj [("category", Json.JStr "Available Domains");
                                   ("domains", Json.JArr [Json.JStr "a.com";
                                                          Json.JStr "b.com"])]]) /\
  forall st,
    Client.isCancelled st = false ->
    Client.allAvailableDomains st = ["a.com"; "b.com"] ->
    Client.after_loop JSON_parse (fun _ => 1) env Client.Finished st
    = Client.Completed ["a.com"; "b.com"] (Client.fallback_groups ["a.com"; "b.com"]).
Proof.
  intros env JSON_parse.
  destruct (categorizer_fallback JSON_parse (fun _ => 1) env ["a.com"; "b.com"])
    as (_ & H & _); [discriminate|].
  destruct H as [Hcat Hrun].
  - right. right. eexists. split; reflexivity.
  - split; [exact Hcat|]. apply Hrun. lia.
Defined.

(* ===================================================================== *)
(** ** The chunk loop of the browser side *)
(* ===================================================================== *)

Section ClientLoop.
Import Exc Prober Client.
Variable B : nat.
Variable env : Env.
Variable domains : list string.
Hypothesis HB : 1 <= B.

Local Abbreviation N := (length domains).
Local Abbreviation loop := (check_loop B env domains).
Local Abbreviation batch_at i := (slice i (i + B) domains).
Local Abbreviation progress_inv := (Client.progress_inv domains).
Local Abbreviation request_inv := (Client.request_inv B env).

Lemma slice_chunk i : batch_at i = take B (drop i domains).
Proof. unfold slice. f_equal. lia. Qed.

Lemma slice_chunk_length i : length (batch_at i) = B `min` (N - i).
Proof. now rewrite slice_chunk, length_take, length_drop. Qed.

Lemma slice_chunk_drop i : (batch_at i ++ drop (i + B) domains)%list = drop i domains.
Proof. now rewrite slice_chunk, <- drop_drop, take_drop. Qed.

(** The loop ends when the step is positive. *)
Lemma check_loop_terminates fuel i st :
  N - i < fuel -> exists r, loop fuel i st = Some r.
Proof.
  revert i st; induction fuel as [|fuel IH]; intros i st Hf; [lia|]. simpl.
  unfold totalDomains. destruct (Nat.leb_spec N i); [eauto|].
  destruct (aborted env i); [eauto|].
  destruct (checkDomainsWithBackend env i (batch_at i)); [|eauto].
  apply IH. lia.
Qed.

(** The rule of the loop: a property kept by every completed chunk holds
    when the loop is left, at the index where it is left. *)
Lemma check_loop_rule (I : nat -> LoopState -> Prop) :
  (forall i st results,
      I i st -> i < N -> aborted env i = false ->
      checkDomainsWithBackend env i (batch_at i) = Val results ->
      I (i + B) (collect domains (batch_at i) results (post i (batch_at i) st))) ->
  forall fuel i st exit st',
    I i st -> loop fuel i st = Some (exit, st') ->
    exists i' st0, I i' st0 /\
      match exit with
      | Finished => N <= i' /\ st' = st0
      | Broke => i' < N /\ aborted env i' = true /\ st' = mark_cancelled st0
      | Raised e =>
          i' < N /\ aborted env i' = false /\
          checkDomainsWithBackend env i' (batch_at i') = Throw e /\ st' = post i' (batch_at i') st0
      end.
Proof.
  intros Hstep. induction fuel as [|fuel IH]; intros i st exit st' HI; [discriminate|].
  simpl. unfold totalDomains. destruct (Nat.leb_spec N i) as [Hle|Hlt].
  { intros [= <- <-]. exists i, st. auto. }
  destruct (aborted env i) eqn:Hab.
  { intros [= <- <-]. exists i, st. auto. }
  destruct (checkDomainsWithBackend env i (batch_at i)) as [results|e] eqn:Hbk.
  - apply IH. now apply Hstep.
  - intros [= <- <-]. exists i, st. auto.
Qed.

(** *** Progress *)

Lemma progress_inv_initial : progress_inv 0 initial.
Proof.
  unfold Client.progress_inv, initial. simpl.
  split; [reflexivity|]. split; [reflexivity|].
  split; [repeat constructor|]. split; [|reflexivity].
  repeat constructor. lia.
Qed.

Lemma progress_inv_step i st results :
  progress_inv i st -> i < N ->
  progress_inv (i + B) (collect domains (batch_at i) results (post i (batch_at i) st)).
Proof.
  intros (Hc & Hl & Hs & Hf & Hn) Hlt. unfold Client.progress_inv, collect, post. simpl.
  unfold totalDomains. rewrite slice_chunk_length, Hc.
  assert (Hnew : (i `min` N + B `min` (N - i)) `min` N = (i + B) `min` N) by lia.
  rewrite Hnew. repeat split; auto.
  - apply last_snoc.
  - apply Sorted_snoc; [assumption|].
    apply last_Some in Hl as [l' Hl']. rewrite Hl'. constructor. lia.
  - apply Forall_app. split; [assumption|]. repeat constructor. lia.
Qed.

(** *** Requests and the abort signal *)

Lemma request_inv_initial : request_inv 0 initial.
Proof.
  unfold Client.request_inv, initial. simpl. split; [exists 0; lia|].
  split; [intros; lia|]. intros j b H. inversion H.
Qed.

Lemma request_inv_step i st results :
  request_inv i st -> aborted env i = false ->
  request_inv (i + B) (collect domains (batch_at i) results (post i (batch_at i) st)).
Proof.
  intros ([m ->] & Hab & Hreq) Hi. unfold Client.request_inv, collect, post. simpl.
  split; [exists (S m); lia|]. split.
  - intros m' Hm'. destruct (decide (m' * B < m * B)) as [Hlt|Hge]; [auto|].
    assert (m' = m) by nia. now subst m'.
  - intros j b [Hin | [= -> ->]%list_elem_of_singleton]%elem_of_app.
    + apply Hreq in Hin as [Hj Hm]. split; [lia|assumption].
    + split; [lia|eauto].
Qed.

End ClientLoop.

Section ClientRuns.
Import Exc Prober Client.
Variable B : nat.
Variable env : Env.
Variable domains : list string.
Hypothesis HB : 1 <= B.

Local Abbreviation N := (length domains).
Local Abbreviation loop := (check_loop B env domains).
Local Abbreviation batch_at i := (slice i (i + B) domains).

(** With a signal that is never set and a backend that answers every batch
    with one result per domain, the loop runs to its end, posts the list
    chunk by chunk and receives a result for every domain. *)
Lemma client_loop_covers fuel i st :
  (forall i, aborted env i = false) ->
  (forall i batch, exists rs,
        backend env i batch = Val (Http.mkResponse 200 (Http.Results rs)) /\
        map domain rs = batch) ->
  N - i < fuel ->
  exists st',
    loop fuel i st = Some (Finished, st') /\
    concat (map snd (requests st')) = (concat (map snd (requests st)) ++ drop i domains)%list /\
    map domain (concat (responses st'))
    = (map domain (concat (responses st)) ++ drop i domains)%list /\
    (Forall (fun r => length (snd r) <= B) (requests st) ->
     Forall (fun r => length (snd r) <= B) (requests st')).
Proof.
  intros Hab Hbk. revert i st; induction fuel as [|fuel IH]; intros i st Hf; [lia|].
  simpl. unfold totalDomains. destruct (Nat.leb_spec N i) as [Hle|Hlt].
  { exists st. rewrite drop_ge by lia. now rewrite !app_nil_r. }
  rewrite Hab. unfold checkDomainsWithBackend at 1.
  destruct (Hbk i (batch_at i)) as (rs & -> & Hrs). simpl.
  destruct (IH (i + B) (collect domains (batch_at i) rs (post i (batch_at i) st)))
    as (st' & Hrun & Hreq & Hres & Hsz); [lia|].
  exists st'. split; [exact Hrun|].
  unfold collect, post in Hreq, Hres, Hsz. simpl in Hreq, Hres, Hsz.
  rewrite map_app, concat_app in Hreq. simpl in Hreq.
  rewrite concat_app, map_app in Hres. simpl in Hres.
  rewrite !app_nil_r, Hrs in Hres. rewrite app_nil_r in Hreq.
  rewrite <- !app_assoc, slice_chunk_drop in Hreq, Hres by exact HB.
  split; [exact Hreq|]. split; [exact Hres|].
  intros Hst. apply Hsz, Forall_app. split; [assumption|].
  repeat constructor. simpl. rewrite slice_chunk_length by exact HB. lia.
Qed.

(** Every run of the loop from its initial state ends, with a counter that
    never decreased, never exceeded the total, and equals the total when
    the loop was left by its condition. *)
Lemma client_loop_progress :
  exists exit st,
    loop (S N) 0 initial = Some (exit, st) /\
    Sorted le (progress st) /\
    last (progress st) = Some (checkedCount st) /\
    Forall (fun c => c <= N) (progress st) /\
    checkedCount st <= N /\
    (exit = Finished -> checkedCount st = N /\ isCancelled st = false) /\
    (exit = Broke -> isCancelled st = true /\ exists i, aborted env i = true) /\
    (forall e, exit = Raised e ->
                 exists i batch, checkDomainsWithBackend env i batch = Throw e).
Proof.
  destruct (check_loop_terminates B env domains HB (S N) 0 initial) as [[exit st] Hrun];
    [lia|].
  exists exit, st. split; [exact Hrun|].
  destruct (check_loop_rule B env domains (Client.progress_inv domains)) with
    (fuel := S N) (i := 0) (st := initial) (exit := exit) (st' := st)
    as (i' & st0 & (Hc & Hl & Hs & Hf & Hn) & Hexit).
  { intros i s results HI Hlt _ _. now apply (progress_inv_step B domains HB). }
  { apply (progress_inv_initial B domains HB). }
  { exact Hrun. }
  assert (Hst : progress st = progress st0 /\ checkedCount st = checkedCount st0).
  { destruct exit; [destruct Hexit as (_ & ->) | destruct Hexit as (_ & _ & ->)
                   | destruct Hexit as (_ & _ & _ & ->)]; split; reflexivity. }
  destruct Hst as [Hp Hcc]. rewrite Hp, Hcc.
  split; [assumption|]. split; [assumption|]. split; [assumption|].
  split; [lia|]. split; [|split].
  - intros ->. destruct Hexit as (Hle & ->). split; [lia|exact Hn].
  - intros ->. destruct Hexit as (_ & Hab & ->). split; [reflexivity|eauto].
  - intros e ->. destruct Hexit as (_ & _ & Hbk & _). eauto.
Qed.

(** Every batch was posted under a clear signal, and nothing is posted at
    or after an iteration that found the signal set. *)
Lemma client_loop_requests exit st :
  loop (S N) 0 initial = Some (exit, st) ->
  (forall j b, (j, b) ∈ requests st -> aborted env j = false) /\
  (forall k, aborted env (k * B) = true ->
             forall j b, (j, b) ∈ requests st -> j < k * B).
Proof.
  intros Hrun.
  destruct (check_loop_rule B env domains (Client.request_inv B env)) with
    (fuel := S N) (i := 0) (st := initial) (exit := exit) (st' := st)
    as (i' & st0 & ([m Hm] & Hclear & Hreq) & Hexit).
  { intros i s results HI _ Hab _. now apply (request_inv_step B env domains HB). }
  { apply (request_inv_initial B env HB). }
  { exact Hrun. }
  assert (Hposted : forall j b, (j, b) ∈ requests st ->
            (exists m', j = m' * B) /\ j <= i' /\ aborted env j = false /\
            forall m', m' * B < j -> aborted env (m' * B) = false).
  { assert (Hold : forall j b, (j, b) ∈ requests st0 ->
              (exists m', j = m' * B) /\ j <= i' /\ aborted env j = false /\
              forall m', m' * B < j -> aborted env (m' * B) = false).
    { intros j b Hin. apply Hreq in Hin as [Hj [m' ->]].
      split; [eauto|]. split; [lia|]. split; [now apply Hclear|].
      intros m'' Hm''. apply Hclear. lia. }
    destruct exit; [destruct Hexit as (_ & ->) | destruct Hexit as (_ & _ & ->)
                   | destruct Hexit as (_ & Hab & _ & ->)]; simpl; auto.
    intros j b [Hin | [= -> ->]%list_elem_of_singleton]%elem_of_app; [eauto|].
    split; [eauto|]. split; [lia|]. split; [assumption|]. exact Hclear. }
  split.
  - intros j b Hin. now apply Hposted in Hin.
  - intros k Hk j b Hin. apply Hposted in Hin as (_ & _ & Hj & Hbelow).
    destruct (decide (j < k * B)) as [|Hge]; [assumption|].
    destruct (decide (k * B = j)) as [Heq|Hne]; [congruence|].
    rewrite Hbelow in Hk by lia. discriminate.
Qed.

End ClientRuns.

(* ===================================================================== *)
(** ** The chunk loop of the streaming handler *)
(* ===================================================================== *)

Section StreamLoop.
Import Exc Json Prober Stream.
Variable B : nat.
Variable resolver : string -> exc Json.
Variable completion : nat -> list nat.
Variable domains : list string.
Hypothesis HB : 1 <= B.

Local Abbreviation N := (length domains).
Local Abbreviation loop := (check_loop B resolver completion domains).
Local Abbreviation batch_at i := (slice i (i + B) domains).
Local Abbreviation counts st := (checked_counts (written st)).

(** Every probe of a chunk settles. *)
Hypothesis Hsettle :
  forall i, i < N -> Promise.complete_order (length (batch_at i)) (completion i).

Lemma stream_probe_total d :
  exists s, checkDomainAvailability_stream resolver d = Val (mkResult d s).
Proof.
  unfold checkDomainAvailability_stream.
  destruct (resolver d) as [data|e]; simpl; [|eauto].
  destruct (get "Status" data) as [Status|e]; simpl; [|eauto].
  destruct (strict_eq_num Status 3); eauto.
Qed.

Lemma stream_all_probes ds order :
  Promise.complete_order (length ds) order ->
  exists rs,
    Promise.all (map (checkDomainAvailability_stream resolver) ds) order
    = Some (Val rs) /\
    map domain rs = ds.
Proof.
  intros Hc.
  assert (Hrs : exists rs, map (checkDomainAvailability_stream resolver) ds = Val <$> rs
                           /\ map domain rs = ds).
  { clear Hc. induction ds as [|d ds' (rs & Hrs & Hd)]; [exists []; split; reflexivity|].
    destruct (stream_probe_total d) as [s Hs].
    exists (mkResult d s :: rs). simpl. now rewrite Hs, Hrs, Hd. }
  destruct Hrs as (rs & Hrs & Hd). exists rs. split; [|assumption].
  rewrite Hrs. apply all_fulfilled. now rewrite <- Hd, length_map in Hc.
Qed.

Lemma Forall_le_TlRel (l : list nat) x : Forall (fun a => a <= x) l -> TlRel le x l.
Proof.
  destruct l as [|a l] using rev_ind; [constructor|].
  intros [_ Hx]%Forall_app. constructor. now inversion Hx.
Qed.

Lemma counts_collect i rs st :
  counts (collect B domains i rs st) = (counts st ++ [(i + B) `min` N])%list.
Proof. unfold collect, checked_counts. simpl. now rewrite omap_app. Qed.

(** The loop runs to its end; the results of the chunks, put end to end,
    answer the domains in order; the progress frames never decrease and,
    when the loop has something to do, end at the total. *)
Lemma stream_loop_run fuel i st :
  N - i < fuel ->
  Sorted le (counts st) ->
  Forall (fun c => c <= i `min` N) (counts st) ->
  exists st',
    loop fuel i st = Some (st', None) /\
    map domain (concat (chunks st'))
    = (map domain (concat (chunks st)) ++ drop i domains)%list /\
    Sorted le (counts st') /\
    Forall (fun c => c <= N) (counts st') /\
    (i < N -> last (counts st') = Some N) /\
    (N <= i -> st' = st).
Proof.
  revert i st; induction fuel as [|fuel IH]; intros i st Hf Hs Hb; [lia|].
  simpl. unfold totalDomains. destruct (Nat.leb_spec N i) as [Hle|Hlt].
  { exists st. rewrite drop_ge by lia. rewrite app_nil_r.
    repeat split; auto; [|lia].
    eapply Forall_impl; [exact Hb|]. simpl. lia. }
  destruct (stream_all_probes (batch_at i) (completion i) (Hsettle i Hlt))
    as (rs & -> & Hrs).
  destruct (IH (i + B) (collect B domains i rs st)) as (st' & Hrun & Hch & Hs' & Hb' & Hl & Hid).
  { lia. }
  { rewrite counts_collect. apply Sorted_snoc; [assumption|].
    apply Forall_le_TlRel. eapply Forall_impl; [exact Hb|]. simpl. lia. }
  { rewrite counts_collect. apply Forall_app. split.
    - eapply Forall_impl; [exact Hb|]. simpl. lia.
    - repeat constructor. }
  exists st'. split; [exact Hrun|]. split; [|split; [exact Hs'|split; [exact Hb'|split]]].
  - rewrite Hch. unfold collect. simpl.
    rewrite concat_app, map_app. simpl. rewrite app_nil_r, Hrs.
    rewrite <- app_assoc. f_equal. unfold slice.
    replace (i + B - i) with B by lia. now rewrite <- drop_drop, take_drop.
  - intros _. destruct (decide (i + B < N)) as [Hlt'|Hge]; [auto|].
    rewrite Hid by lia. rewrite counts_collect, last_snoc. f_equal. lia.
  - lia.
Qed.

End StreamLoop.

(* ===================================================================== *)
(** ** Claims about the batch runner *)
(* ===================================================================== *)

(** C1: for a batch size of at least one and a list without duplicates,
    the chunk loop, when it is not cancelled, probes every domain exactly
    once.  On the browser side, with a backend that answers each batch
    with one result per domain, the batches posted are consecutive chunks
    of at most [BATCH_SIZE] domains and the results received, put end to
    end, answer the input list in order.  In the streaming handler, once
    the probes of every chunk have settled, the results of the chunks put
    end to end answer the input list in order. *)
Theorem batch_runner_coverage (B : nat) (domains : list string) :
  1 <= B ->
  NoDup domains ->
  (forall env,
      (forall i, Client.aborted env i = false) ->
      (forall i batch, exists rs,
            Client.backend env i batch = Exc.Val (Http.mkResponse 200 (Http.Results rs)) /\
            map Prober.domain rs = batch) ->
      exists st,
        Client.check_loop B env domains (S (length domains)) 0 Client.initial
        = Some (Client.Finished, st) /\
        concat (map snd (Client.requests st)) = domains /\
        Forall (fun r => length (snd r) <= B) (Client.requests st) /\
        map Prober.domain (concat (Client.responses st)) = domains /\
        NoDup (map Prober.domain (concat (Client.responses st)))) /\
  (forall resolver completion w,
      (forall i, i < length domains ->
                 Promise.complete_order (length (slice i (i + B) domains)) (completion i)) ->
      Stream.checked_counts w = [] ->
      exists st,
        Stream.check_loop B resolver completion domains (S (length domains)) 0
          (Stream.mkState [] w [])
        = Some (st, None) /\
        map Prober.domain (concat (Stream.chunks st)) = domains /\
        NoDup (map Prober.domain (concat (Stream.chunks st)))).
Proof.
  intros HB Hnd. split.
  - intros env Hab Hbk.
    destruct (client_loop_covers B env domains HB (S (length domains)) 0
                Client.initial Hab Hbk) as (st & Hrun & Hreq & Hres & Hsz); [lia|].
    simpl in Hreq, Hres. rewrite drop_0 in Hreq, Hres.
    exists st. rewrite Hreq, Hres.
    split; [exact Hrun|]. split; [reflexivity|]. split; [|split; [reflexivity|exact Hnd]].
    apply Hsz. constructor.
  - intros resolver completion w Hsettle Hw.
    destruct (stream_loop_run B resolver completion domains HB Hsettle
                (S (length domains)) 0 (Stream.mkState [] w []))
      as (st & Hrun & Hch & _); simpl; [lia|rewrite Hw; constructor..|].
    simpl in Hch. rewrite drop_0 in Hch.
    exists st. rewrite Hch. auto.
Qed.

(** C3: every run of the browser-side loop ends, and the values of
    [checkedCount] shown after the chunks never decrease and never exceed
    the number of domains.  The last one is that number when the loop runs
    to its end, and at most that number when the loop is left by the
    cancellation or by a failing backend call; a run whose signal is never
    set and whose backend calls all succeed runs to its end.  The
    [checked] values of the progress frames of the streaming loop never
    decrease and end at the number of domains. *)
Theorem progress_monotone (B : nat) (env : Client.Env) (domains : list string) :
  1 <= B ->
  (exists exit st,
      Client.check_loop B env domains (S (length domains)) 0 Client.initial
      = Some (exit, st) /\
      Sorted le (Client.progress st) /\
      last (Client.progress st) = Some (Client.checkedCount st) /\
      Client.checkedCount st <= length domains /\
      match exit with
      | Client.Finished =>
          Client.checkedCount st = length domains /\ Client.isCancelled st = false
      | Client.Broke =>
          Client.isCancelled st = true /\ exists i, Client.aborted env i = true
      | Client.Raised e =>
          exists i batch, Client.checkDomainsWithBackend env i batch = Exc.Throw e
      end /\
      ((forall i, Client.aborted env i = false) ->
       (forall i batch, exists rs,
             Client.checkDomainsWithBackend env i batch = Exc.Val rs) ->
       exit = Client.Finished)) /\
  (forall resolver completion w,
      (forall i, i < length domains ->
                 Promise.complete_order (length (slice i (i + B) domains)) (completion i)) ->
      Stream.checked_counts w = [] ->
      domains <> [] ->
      exists st,
        Stream.check_loop B resolver completion domains (S (length domains)) 0
          (Stream.mkState [] w [])
        = Some (st, None) /\
        Sorted le (Stream.checked_counts (Stream.written st)) /\
        last (Stream.checked_counts (Stream.written st)) = Some (length domains)).
Proof.
  intros HB. split.
  - destruct (client_loop_progress B env domains HB)
      as (exit & st & Hrun & Hs & Hl & _ & Hle & Hfin & Hbrk & Hraise).
    exists exit, st.
    split; [exact Hrun|]. split; [assumption|]. split; [assumption|].
    split; [assumption|]. split.
    + destruct exit as [| |e]; [now apply Hfin|now apply Hbrk|now apply Hraise].
    + intros Hab Hok. destruct exit as [| |e]; [reflexivity| |].
      * destruct (Hbrk eq_refl) as (_ & i & Hi). rewrite Hab in Hi. discriminate.
      * destruct (Hraise e eq_refl) as (i & batch & Hi).
        destruct (Hok i batch) as [rs Hrs]. congruence.
  - intros resolver completion w Hsettle Hw Hne.
    destruct (stream_loop_run B resolver completion domains HB Hsettle
                (S (length domains)) 0 (Stream.mkState [] w []))
      as (st & Hrun & _ & Hs & _ & Hl & _); simpl; [lia|rewrite Hw; constructor..|].
    exists st. split; [assumption|]. split; [assumption|]. apply Hl.
    destruct domains; [congruence|simpl; lia].
Qed.

(** C4: when the signal is already set at the head of the first iteration,
    the run posts no batch and ends cancelled with an empty list of
    available domains; in every run, each batch was posted under a clear
    signal and no batch is posted at or after an iteration that finds the
    signal set. *)
Theorem cancellation_at_chunk_boundaries
    (JSON_parse : string -> option Json.Json) (copy_cat_buttons : Json.Json -> nat)
    (B : nat) (env : Client.Env) (domains : list string) :
  1 <= B ->
  domains <> [] ->
  (Client.aborted env 0 = true ->
   exists st,
     Client.run_checks JSON_parse copy_cat_buttons B env domains
     = Some (Client.mkReport (Client.Cancelled []) (Some st)) /\
     Client.requests st = [] /\ Client.responses st = [] /\
     Client.isCancelled st = true /\ Client.checkedCount st = 0) /\
  (exists exit st,
      Client.check_loop B env domains (S (length domains)) 0 Client.initial
      = Some (exit, st) /\
      (forall j b, (j, b) ∈ Client.requests st -> Client.aborted env j = false) /\
      (forall k, Client.aborted env (k * B) = true ->
                 forall j b, (j, b) ∈ Client.requests st -> j < k * B)).
Proof.
  intros HB Hne. split.
  - intros Hab. exists (Client.mark_cancelled Client.initial).
    split; [|repeat split].
    unfold Client.run_checks. simpl. unfold Client.totalDomains.
    destruct domains as [|d ds]; [congruence|]. simpl. now rewrite Hab.
  - destruct (check_loop_terminates B env domains HB (S (length domains)) 0
                Client.initial) as [[exit st] Hrun]; [lia|].
    exists exit, st. split; [exact Hrun|].
    exact (client_loop_requests B env domains HB exit st Hrun).
Qed.

Lemma batch_runner_coverage_witness :
  let domains := ["a.com"; "b.io"; "c.org"] in
  let env := Client.mkEnv (Exc.Val None) (fun _ => false)
               (fun _ batch =>
                  Exc.Val (Http.mkResponse 200
                             (Http.Results
                                (map (fun d => Prober.mkResult d Prober.Unavailable) batch))))
               (Exc.Val None) in
  (exists st,
      Client.check_loop 2 env domains 4 0 Client.initial = Some (Client.Finished, st) /\
      concat (map snd (Client.requests st)) = domains /\
      Forall (fun r => length (snd r) <= 2) (Client.requests st) /\
      map Prober.domain (concat (Client.responses st)) = domains /\
      NoDup (map Prober.domain (concat (Client.responses st)))) /\
  (exists st,
      Stream.check_loop 2 (fun _ => Exc.Val Json.JNull)
        (fun i => rev (seq 0 (length (slice i (i + 2) domains)))) domains 4 0
        (Stream.mkState [] [] [])
      = Some (st, None) /\
      map Prober.domain (concat (Stream.chunks st)) = domains /\
      NoDup (map Prober.domain (concat (Stream.chunks st)))).
Proof.
  intros domains env.
  assert (Hnd : NoDup domains).
  { apply (bool_decide_unpack _). reflexivity. }
  destruct (batch_runner_coverage 2 domains) as [Hclient Hstream]; [lia|exact Hnd|].
  split.
  - apply (Hclient env); [reflexivity|].
    intros i batch. eexists. split; [reflexivity|].
    rewrite map_map. apply map_id.
  - apply Hstream; [|reflexivity].
    intros i _. unfold Promise.complete_order. symmetry. apply Permutation_rev.
Defined.

Lemma progress_monotone_witness :
  let domains := ["a.com"; "b.io"; "c.org"] in
  let env := Client.mkEnv (Exc.Val None) (fun _ => false)
               (fun _ batch =>
                  Exc.Val (Http.mkResponse 200
                             (Http.Results
                                (map (fun d => Prober.mkResult d Prober.Available) batch))))
               (Exc.Val None) in
  (exists st,
      Client.check_loop 2 env domains 4 0 Client.initial = Some (Client.Finished, st) /\
      Sorted le (Client.progress st) /\
      last (Client.progress st) = Some 3) /\
  (exists st,
      Stream.check_loop 2 (fun _ => Exc.Val Json.JNull)
        (fun i => rev (seq 0 (length (slice i (i + 2) domains)))) domains 4 0
        (Stream.mkState [] [] [])
      = Some (st, None) /\
      Sorted le (Stream.checked_counts (Stream.written st)) /\
      last (Stream.checked_counts (Stream.written st)) = Some 3).
Proof.
  intros domains env.
  destruct (progress_monotone 2 env domains) as [Hclient Hstream]; [lia|].
  split.
  - destruct Hclient as (exit & st & Hrun & Hs & Hl & _ & Hexit & Hfin).
    assert (E : exit = Client.Finished).
    { apply Hfin; [reflexivity|]. intros i batch. eexists. reflexivity. }
    subst exit. destruct Hexit as [Hn _].
    exists st. split; [exact Hrun|]. split; [exact Hs|].
    rewrite Hl. f_equal. exact Hn.
  - apply Hstream; [|reflexivity|discriminate].
    intros i _. unfold Promise.complete_order. symmetry. apply Permutation_rev.
Defined.

Lemma cancellation_at_chunk_boundaries_witness :
  let domains := ["a.com"; "b.io"; "c.org"] in
  let env := Client.mkEnv (Exc.Val (Some "a.com")) (fun _ => true)
               (fun _ batch =>
                  Exc.Val (Http.mkResponse 200
                             (Http.Results
                                (map (fun d => Prober.mkResult d Prober.Available) batch))))
               (Exc.Val None) in
  (exists st,
      Client.run_checks (fun _ => None) (fun _ => 0) 2 env domains
      = Some (Client.mkReport (Client.Cancelled []) (Some st)) /\
      Client.requests st = [] /\ Client.responses st = [] /\
      Client.isCancelled st = true /\ Client.checkedCount st = 0) /\
  (exists exit st,
      Client.check_loop 2 env domains 4 0 Client.initial = Some (exit, st) /\
      (forall j b, (j, b) ∈ Client.requests st -> Client.aborted env j = false) /\
      (forall k, Client.aborted env (k * 2) = true ->
                 forall j b, (j, b) ∈ Client.requests st -> j < k * 2)).
Proof.
  intros domains env.
  destruct (cancellation_at_chunk_boundaries (fun _ => None) (fun _ => 0) 2 env domains)
    as [Hfirst Hlater]; [lia|discriminate|].
  split; [apply Hfirst; reflexivity|exact Hlater].
Defined.

(** A run cancelled between the first and the second chunk: the first
    chunk is kept, the second one is never posted. *)
Example cancelled_after_first_chunk :
  Client.run_checks (fun _ => None) (fun _ => 0) 2
    (Client.mkEnv (Exc.Val None) (fun i => (2 <=? i)%nat)
       (fun _ batch =>
          Exc.Val (Http.mkResponse 200
                     (Http.Results
                        (map (fun d => Prober.mkResult d Prober.Available) batch))))
       (Exc.Val None))
    ["a.com"; "b.io"; "c.org"]
  = Some (Client.mkReport (Client.Cancelled ["a.com"; "b.io"])
            (Some (Client.mkState 2 ["a.com"; "b.io"] true
                     [(0, ["a.com"; "b.io"])]
                     [[Prober.mkResult "a.com" Prober.Available;
                       Prober.mkResult "b.io" Prober.Available]]
                     [0; 2]))).
Proof. reflexivity. Qed.

(** A run whose second batch is answered 500: the run fails after the
    first chunk, with the counter at two out of three. *)
Example failed_second_chunk :
  Client.run_checks (fun _ => None) (fun _ => 0) 2
    (Client.mkEnv (Exc.Val None) (fun _ => false)
       (fun i batch =>
          if (i =? 0)%nat
          then Exc.Val (Http.mkResponse 200
                          (Http.Results
                             (map (fun d => Prober.mkResult d Prober.Unavailable) batch)))
          else Exc.Val (Http.mkResponse 500 (Http.ErrorBody "Server configuration error.")))
       (Exc.Val None))
    ["a.com"; "b.io"; "c.org"]
  = Some (Client.mkReport
            (Client.Failed (Exc.Error_ "The server returned an error. Please try again later."))
            (Some (Client.mkState 2 [] false
                     [(0, ["a.com"; "b.io"]); (2, ["c.org"])]
                     [[Prober.mkResult "a.com" Prober.Unavailable;
                       Prober.mkResult "b.io" Prober.Unavailable]]
                     [0; 2]))).
Proof. reflexivity. Qed.

(** The end-to-end scenario: the resolver reports NXDOMAIN for [foo.com]
    only; the categorization call fails. *)
Example end_to_end :
  Client.analyze (fun _ => None) (fun _ => 1) 50
    (Client.mkEnv (Exc.Val None) (fun _ => false)
       (fun _ batch =>
          Exc.Val (Http.mkResponse 200
                     (Http.Results
                        (map (fun d => Prober.mkResult d
                                         (if String.eqb d "foo.com"
                                          then Prober.Available else Prober.Unavailable))
                           batch))))
       (Exc.Throw (Exc.Error_ "quota")))
    (Client.mkUi Client.checker ("foo.com" ++ String "010" "bar.io") "" "")
  = Some (Client.mkReport
            (Client.Completed ["foo.com"] (Client.fallback_groups ["foo.com"]))
            (Some (Client.mkState 2 ["foo.com"] false
                     [(0, ["foo.com"; "bar.io"])]
                     [[Prober.mkResult "foo.com" Prober.Available;
                       Prober.mkResult "bar.io" Prober.Unavailable]]
                     [0; 2]))).
Proof. reflexivity. Qed.

(** The streaming handler, on the same scenario: [start] throws before it
    writes anything. *)
Example stream_end_to_end :
  Stream.start (fun _ => None) 10
    (fun d => if String.eqb d "foo.com"
              then Exc.Val (Json.JObj [("Status", Json.JNum 3)])
              else Exc.Val (Json.JObj [("Status", Json.JNum 0)]))
    (fun _ => [1; 0]) (Exc.Val None) (Exc.Val (Some "oops"))
    (Http.mkBody (Some "checker") (Some ["foo.com"; "bar.io"]) None None)
  = Exc.Throw (Exc.TypeError "controller.getWriter is not a function").
Proof. reflexivity. Qed.

(* ===================================================================== *)
(** ** Server-sent events: what is written is what is read *)
(* ===================================================================== *)

Section SseFacts.
Import Exc Sse.

Lemma string_ind2 (P : string -> Prop) :
  P EmptyString ->
  (forall c, P (String c EmptyString)) ->
  (forall c c' r, P r -> P (String c' r) -> P (String c (String c' r))) ->
  forall s, P s.
Proof.
  intros H0 H1 H2 s.
  assert (H : P s /\ forall c, P (String c s)); [|exact (proj1 H)].
  induction s as [|c' r [IH1 IH2]]; split; auto.
Qed.

Lemma split_LFLF_two c c' r :
  split_LFLF (String c (String c' r)) =
  if Ascii.eqb c "010" && Ascii.eqb c' "010"
  then EmptyString :: split_LFLF r
  else cons_head c (split_LFLF (String c' r)).
Proof. reflexivity. Qed.

Lemma cons_head_nonempty c l : cons_head c l <> [].
Proof. destruct l; discriminate. Qed.

Lemma split_LFLF_nonempty s : split_LFLF s <> [].
Proof.
  induction s as [|c|c c' r IH1 IH2] using string_ind2; try discriminate.
  rewrite split_LFLF_two.
  destruct (Ascii.eqb c "010" && Ascii.eqb c' "010"); [discriminate|].
  apply cons_head_nonempty.
Qed.

Lemma join_cons_head sep c l :
  l <> [] -> Input.join sep (cons_head c l) = String c (Input.join sep l).
Proof. destruct l as [|h [|h' t]]; intros H; [congruence|reflexivity..]. Qed.

Lemma join_cons sep h l :
  l <> [] -> Input.join sep (h :: l) = h ++ sep ++ Input.join sep l.
Proof. destruct l; [congruence|reflexivity]. Qed.

(** Splitting at the separator and joining with it gives the text back. *)
Lemma join_split_LFLF s : Input.join LFLF (split_LFLF s) = s.
Proof.
  induction s as [|c|c c' r IH1 IH2] using string_ind2; try reflexivity.
  rewrite split_LFLF_two.
  destruct (Ascii.eqb c "010" && Ascii.eqb c' "010") eqn:E.
  - apply andb_true_iff in E as [->%Ascii.eqb_eq ->%Ascii.eqb_eq].
    rewrite join_cons by apply split_LFLF_nonempty. now rewrite IH1.
  - rewrite join_cons_head by apply split_LFLF_nonempty. now rewrite IH2.
Qed.

Lemma split_LFLF_single s h : split_LFLF s = [h] -> h = s.
Proof. intros H. rewrite <- (join_split_LFLF s), H. reflexivity. Qed.

Lemma removelast_cons (h : string) l : l <> [] -> removelast (h :: l) = h :: removelast l.
Proof. destruct l; [congruence|reflexivity]. Qed.

Lemma last_cons_nonempty (h : string) l : l <> [] -> last (h :: l) = last l.
Proof. destruct l; [congruence|reflexivity]. Qed.

(** The pieces found in a prefix of the text are found in the text: only
    the last, unfinished piece of the prefix is continued. *)
Lemma split_LFLF_app a b :
  split_LFLF (a ++ b) =
  (removelast (split_LFLF a)
   ++ split_LFLF (default EmptyString (last (split_LFLF a)) ++ b))%list.
Proof.
  induction a as [|c|c c' r IH1 IH2] using string_ind2; try reflexivity.
  change (String c (String c' r) ++ b) with (String c (String c' (r ++ b))).
  rewrite !split_LFLF_two.
  destruct (Ascii.eqb c "010" && Ascii.eqb c' "010") eqn:E.
  - rewrite IH1, removelast_cons, last_cons_nonempty by apply split_LFLF_nonempty.
    reflexivity.
  - change (String c' (r ++ b)) with (String c' r ++ b). rewrite IH2.
    pose proof (split_LFLF_nonempty (String c' r)) as Hne.
    destruct (split_LFLF (String c' r)) as [|h [|h' t]] eqn:Er; [congruence| |].
    + apply split_LFLF_single in Er as ->.
      cbn -[split_LFLF].
      change (String c (String c' r) ++ b) with (String c (String c' (r ++ b))).
      rewrite split_LFLF_two, E. reflexivity.
    + reflexivity.
Qed.

Lemma split_LFLF_last_fixed s :
  split_LFLF (default EmptyString (last (split_LFLF s)))
  = [default EmptyString (last (split_LFLF s))].
Proof.
  induction s as [|c|c c' r IH1 IH2] using string_ind2; try reflexivity.
  rewrite split_LFLF_two.
  destruct (Ascii.eqb c "010" && Ascii.eqb c' "010") eqn:E.
  - rewrite last_cons_nonempty by apply split_LFLF_nonempty. exact IH1.
  - destruct (split_LFLF (String c' r)) as [|h [|h' t]] eqn:Er.
    + now apply split_LFLF_nonempty in Er.
    + apply split_LFLF_single in Er as Hh. subst h.
      cbn -[split_LFLF]. rewrite split_LFLF_two, E, Er. reflexivity.
    + exact IH2.
Qed.

(** A piece without line feed, followed by the separator. *)
Lemma split_LFLF_piece x rest :
  all_chars Input.not_LF x = true ->
  split_LFLF (x ++ LFLF ++ rest) = x :: split_LFLF rest.
Proof.
  induction x as [|c x IH]; [reflexivity|].
  cbn [all_chars]. intros [Hc Hx]%andb_true_iff. specialize (IH Hx).
  unfold Input.not_LF in Hc. apply negb_true_iff in Hc.
  change (String c x ++ LFLF ++ rest) with (String c (x ++ LFLF ++ rest)).
  destruct (x ++ LFLF ++ rest) as [|c' r'] eqn:Er.
  { destruct x; discriminate Er. }
  rewrite split_LFLF_two, Hc, IH. reflexivity.
Qed.

Lemma str_app_cons x (a b : string) : String x a ++ b = String x (a ++ b).
Proof. reflexivity. Qed.

Lemma str_app_assoc (a b c : string) : (a ++ b) ++ c = a ++ b ++ c.
Proof.
  induction a as [|x a IH]; [reflexivity|].
  now rewrite !str_app_cons, IH.
Qed.

Lemma str_app_nil_r (a : string) : a ++ EmptyString = a.
Proof.
  induction a as [|x a IH]; [reflexivity|].
  now rewrite str_app_cons, IH.
Qed.

Lemma all_chars_app P (a b : string) :
  all_chars P (a ++ b) = all_chars P a && all_chars P b.
Proof.
  induction a as [|x a IH]; [reflexivity|].
  rewrite str_app_cons. cbn [all_chars]. now rewrite IH, andb_assoc.
Qed.

Lemma join_empty_cons (x : string) l :
  Input.join EmptyString (x :: l) = x ++ Input.join EmptyString l.
Proof. destruct l; [symmetry; apply str_app_nil_r|reflexivity]. Qed.

Section Frames.
Context {Frame : Type}.
Variable JSON_stringify : Frame -> string.
Variable JSON_parse : string -> exc Frame.
Variable cancelled : nat -> bool.
Hypothesis parse_stringify : forall f, JSON_parse (JSON_stringify f) = Val f.
Hypothesis stringify_one_line :
  forall f, all_chars Input.not_LF (JSON_stringify f) = true.

Local Abbreviation line f := ("data: " ++ JSON_stringify f).
Local Abbreviation text fs := (written_text JSON_stringify fs).

Lemma written_text_cons f fs : text (f :: fs) = line f ++ LFLF ++ text fs.
Proof.
  unfold written_text. cbn [map]. rewrite join_empty_cons. unfold frame.
  now rewrite !str_app_assoc.
Qed.

(** The pieces of what was written are the lines of the frames, followed
    by the empty rest. *)
Lemma split_written_text fs :
  split_LFLF (text fs) = (map (fun f => line f) fs ++ [EmptyString])%list.
Proof.
  induction fs as [|f fs IH]; [reflexivity|].
  rewrite written_text_cons, split_LFLF_piece, IH; [reflexivity|].
  rewrite all_chars_app, stringify_one_line. reflexivity.
Qed.

Lemma handle_lines_frames fs handled :
  handle_lines JSON_parse (map (fun f => line f) fs) handled = ((handled ++ fs)%list, None).
Proof.
  revert handled; induction fs as [|f fs IH]; intros handled; cbn [map handle_lines].
  - now rewrite app_nil_r.
  - change (startsWith "data: " (line f)) with true.
    change (slice_from 6 (line f)) with (JSON_stringify f).
    cbv iota. rewrite parse_stringify, IH, <- app_assoc. reflexivity.
Qed.

(** The loop, started between two reads with the unfinished piece in the
    buffer, hands over the frames that are still to come, in order, until
    it is cancelled. *)
Lemma read_loop_frames chunks k buffer handled fs :
  split_LFLF buffer = [buffer] ->
  buffer ++ Input.join EmptyString chunks = text fs ->
  exists exit buffer' fs1 fs2,
    read_loop JSON_parse cancelled chunks None k buffer handled
    = (exit, buffer', (handled ++ fs1)%list) /\
    fs = (fs1 ++ fs2)%list /\
    (exit = Done /\ fs2 = [] /\ buffer' = EmptyString \/
     exit = Cancelled /\ exists k', cancelled k' = true).
Proof.
  revert k buffer handled fs.
  induction chunks as [|value rest IH]; intros k buffer handled fs Hbuf Htext;
    cbn [read_loop]; destruct (cancelled k) eqn:Hc.
  - exists Cancelled, buffer, [], fs. rewrite app_nil_r. eauto 6.
  - cbn [Input.join] in Htext. rewrite str_app_nil_r in Htext.
    pose proof (split_written_text fs) as Hs. rewrite <- Htext, Hbuf in Hs.
    destruct fs as [|f fs]; [|destruct fs; discriminate Hs].
    injection Hs as Hb. exists Done, buffer, [], []. rewrite app_nil_r.
    split; [reflexivity|]. split; [reflexivity|]. left. auto.
  - exists Cancelled, buffer, [], fs. rewrite app_nil_r. eauto 6.
  - rewrite join_empty_cons, <- str_app_assoc in Htext.
    pose proof (split_written_text fs) as Hs.
    rewrite <- Htext, split_LFLF_app in Hs.
    set (lines := split_LFLF (buffer ++ value)) in *.
    set (buffer1 := default EmptyString (last lines)) in *.
    set (R := Input.join EmptyString rest) in *.
    destruct (split_LFLF (buffer1 ++ R)) as [|y Y _] eqn:EY using rev_ind.
    { now apply split_LFLF_nonempty in EY. }
    rewrite app_assoc in Hs. apply app_inj_tail in Hs as [Hs Hy]. subst y.
    symmetry in Hs. apply fmap_app_inv in Hs as (fs1 & fs2 & HX & HY & ->).
    assert (Hrest : buffer1 ++ R = text fs2).
    { rewrite <- (join_split_LFLF (buffer1 ++ R)), EY, HY.
      change (list_fmap Frame string (fun f => line f) fs2)
        with (map (fun f => line f) fs2).
      rewrite <- split_written_text. apply join_split_LFLF. }
    change (list_fmap Frame string (fun f => line f) fs1)
      with (map (fun f => line f) fs1) in HX.
    rewrite HX, handle_lines_frames.
    destruct (IH (S k) buffer1 (handled ++ fs1)%list fs2)
      as (exit & buffer' & fs1' & fs2' & Hrun & -> & Hexit).
    { apply split_LFLF_last_fixed. }
    { exact Hrest. }
    exists exit, buffer', (fs1 ++ fs1')%list, fs2'.
    rewrite Hrun, !app_assoc. auto.
Qed.

End Frames.

End SseFacts.

(** X1: whatever the way the network cuts the text of the stream into
    chunks, the read loop of the browser hands to [handleStreamEvent] the
    frames that [writeToStream] wrote, in the order written: all of them,
    with an empty buffer left, when the loop runs to the end of the stream,
    and a prefix of them when the user cancels.  ([JSON.stringify] is taken
    to write no line feed and to be undone by [JSON.parse].) *)
Theorem sse_frames_read_back {Frame : Type}
    (JSON_stringify : Frame -> string) (JSON_parse : string -> Exc.exc Frame)
    (cancelled : nat -> bool) (frames : list Frame) (chunks : list string) :
  (forall f, JSON_parse (JSON_stringify f) = Exc.Val f) ->
  (forall f, all_chars Input.not_LF (JSON_stringify f) = true) ->
  Input.join EmptyString chunks = Sse.written_text JSON_stringify frames ->
  exists exit buffer handled,
    Sse.read_loop JSON_parse cancelled chunks None 0 EmptyString []
    = (exit, buffer, handled) /\
    handled `prefix_of` frames /\
    (exit = Sse.Done -> handled = frames /\ buffer = EmptyString) /\
    (exit = Sse.Done \/ exit = Sse.Cancelled) /\
    ((forall k, cancelled k = false) -> exit = Sse.Done).
Proof.
  intros Hps Hline Htext.
  destruct (read_loop_frames JSON_stringify JSON_parse cancelled Hps Hline
              chunks 0 EmptyString [] frames)
    as (exit & buffer & fs1 & fs2 & Hrun & -> & Hexit); [reflexivity|exact Htext|].
  exists exit, buffer, fs1. split; [exact Hrun|].
  split; [now exists fs2|].
  destruct Hexit as [(-> & -> & ->) | (-> & k' & Hk')].
  - rewrite app_nil_r. repeat split; auto.
  - split; [discriminate|]. split; [now right|].
    intros Hnever. rewrite Hnever in Hk'. discriminate.
Qed.

Lemma sse_frames_read_back_witness :
  let stringify := fun b : bool => if b then "true" else "false" in
  let parse := fun s : string =>
    if String.eqb s "true" then Exc.Val true
    else if String.eqb s "false" then Exc.Val false
    else Exc.Throw Exc.SyntaxError in
  let chunks := ["data: tr"; "ue" ++ Input.LF; Input.LF ++ "data: false" ++ Sse.LFLF] in
  exists exit buffer handled,
    Sse.read_loop parse (fun _ => false) chunks None 0 EmptyString []
    = (exit, buffer, handled) /\
    handled `prefix_of` [true; false] /\
    (exit = Sse.Done -> handled = [true; false] /\ buffer = EmptyString) /\
    (exit = Sse.Done \/ exit = Sse.Cancelled) /\
    ((forall k, (fun _ : nat => false) k = false) -> exit = Sse.Done).
Proof.
  intros stringify parse chunks.
  apply (sse_frames_read_back stringify parse (fun _ => false) [true; false] chunks).
  - intros []; reflexivity.
  - intros []; reflexivity.
  - reflexivity.
Defined.

Example sse_read_cut_in_separator :
  Sse.read_loop (fun s => Exc.Val s) (fun _ => false)
    ["data: a" ++ Input.LF; Input.LF ++ "junk" ++ Sse.LFLF ++ "data: b"; Sse.LFLF ++ "da"]
    None 0 EmptyString []
  = (Sse.Done, "da", ["a"; "b"]).
Proof. reflexivity. Qed.

(* ===================================================================== *)
(** ** The streaming handler of the orchestrator *)
(* ===================================================================== *)

(** X2: the streaming handler of the orchestrator never writes a frame.
    Anything but a POST is answered 405, a POST without an API key or with
    a body that cannot be read is answered 500; every other request gets a
    response whose stream is put in the errored state by the [TypeError]
    of [controller.getWriter()], which [start] calls before its [try]:
    no frame is written and the stream is not closed, whatever the body,
    the resolver and the model do. *)
Theorem orchestrator_stream_errored
    (resolver : string -> Exc.exc Json.Json) (completion : list nat)
    (API_KEY : option string) (generateContent : Exc.exc (option string))
    (req : Http.Request) :
  match OrchestratorStream.handler resolver completion API_KEY generateContent req with
  | OrchestratorStream.Plain response =>
      Http.status response = 405 /\ Http.method req <> "POST" \/
      Http.status response = 500 /\ Http.method req = "POST" /\
      (Http.falsy API_KEY = true \/ exists e, Http.json req = Exc.Throw e)
  | OrchestratorStream.Streamed stream =>
      Http.method req = "POST" /\ Http.falsy API_KEY = false /\
      (exists body, Http.json req = Exc.Val body) /\
      exists e, stream = Exc.Throw e /\ Exc.name e = "TypeError"
  end.
Proof.
  unfold OrchestratorStream.handler.
  destruct (String.eqb (Http.method req) "POST") eqn:Hm; cbn [negb].
  - apply String.eqb_eq in Hm.
    destruct (Http.falsy API_KEY) eqn:Hk; [right; auto|].
    destruct (Http.json req) as [body|e]; [|right; eauto 6].
    split; [exact Hm|]. split; [reflexivity|]. split; [eauto|].
    eexists. split; reflexivity.
  - apply String.eqb_neq in Hm. left. auto.
Qed.

Example orchestrator_stream_run :
  OrchestratorStream.handler
    (fun d => if String.eqb d "foo.com"
              then Exc.Val (Json.JObj [("Status", Json.JNum 3)])
              else Exc.Val (Json.JObj [("Status", Json.JNum 0)]))
    [1; 0] (Some "key") (Exc.Val None)
    (Http.mkRequest "POST"
       (Exc.Val (Http.mkBody (Some "checker") (Some ["foo.com"; "bar.io"]) None None)))
  = OrchestratorStream.Streamed
      (Exc.Throw (Exc.TypeError "controller.getWriter is not a function")).
Proof. reflexivity. Qed.

(* ===================================================================== *)
(** ** What the endpoints answer to a request *)
(* ===================================================================== *)

Section AllInv.
Import Exc Promise.
Context {A : Type}.

(** When every promise is fulfilled, [Promise.all] is pending or delivers
    the values of all of them, in the order of the promises: never a part
    of them, never an exception. *)
Lemma all_fulfilled_inv (vs : list A) completion r :
  Promise.all (Val <$> vs) completion = Some r -> r = Val vs.
Proof.
  unfold Promise.all. rewrite length_fmap.
  destruct (settle_fulfilled vs completion (replicate (length vs) None))
    as (slots' & -> & Hl & Hi); [apply length_replicate|].
  destruct (mapM id slots') as [l|] eqn:Hm; [|discriminate].
  intros [= <-]. f_equal. apply mapM_Some_1 in Hm.
  pose proof (Forall2_length _ _ _ Hm) as Hlen.
  apply list_eq. intros i.
  destruct (vs !! i) as [v|] eqn:Hv.
  - apply lookup_lt_Some in Hv as Hlt.
    destruct (lookup_lt_is_Some_2 slots' i) as [x Hx]; [lia|].
    destruct (Forall2_lookup_l _ _ _ _ _ Hm Hx) as (y & Hy & Hxy).
    unfold id in Hxy. subst x. rewrite Hy. rewrite Hi in Hx.
    case_bool_decide as Hin.
    + rewrite Hv in Hx. simpl in Hx. congruence.
    + rewrite lookup_replicate_2 in Hx by lia. discriminate.
  - apply lookup_ge_None in Hv. apply lookup_ge_None. lia.
Qed.

End AllInv.

(** X3: the handler of [check-domain.js] answers 405 to anything but a
    POST, 500 to a POST whose body cannot be read, and 400 to a POST whose
    [domains] is missing, not an array, or empty.  Whatever the order in
    which the probes settle, and whether all of them do, an answer with
    status 200 is only given to a POST with a non-empty list and always
    carries one result per domain, in input order: never a part of the
    results. *)
Theorem check_domain_answers
    (tie : bool) (resolver : string -> Prober.Network) (completion : list nat)
    (req : Http.Request) :
  (Http.method req <> "POST" ->
   CheckDomain.handler tie resolver completion req
   = Some (Http.mkResponse 405 (Http.ErrorBody "Method not allowed"))) /\
  (Http.method req = "POST" ->
   (forall e, Http.json req = Exc.Throw e ->
      CheckDomain.handler tie resolver completion req
      = Some (Http.mkResponse 500 (Http.ErrorBody "An internal server error occurred."))) /\
   (forall body, Http.json req = Exc.Val body ->
      Http.domains body = None \/ Http.domains body = Some [] ->
      exists msg, CheckDomain.handler tie resolver completion req
                  = Some (Http.mkResponse 400 (Http.ErrorBody msg)))) /\
  (forall response,
      CheckDomain.handler tie resolver completion req = Some response ->
      Http.status response = 200 ->
      exists body ds rs,
        Http.method req = "POST" /\ Http.json req = Exc.Val body /\
        Http.domains body = Some ds /\ ds <> [] /\
        Http.payload response = Http.Results rs /\
        map Prober.domain rs = ds).
Proof.
  unfold CheckDomain.handler. split; [|split].
  - intros Hm. apply String.eqb_neq in Hm. now rewrite Hm.
  - intros ->. simpl. split.
    + intros e ->. reflexivity.
    + intros body -> [-> | ->]; eauto.
  - intros response.
    destruct (String.eqb (Http.method req) "POST") eqn:Hm; simpl;
      [|intros [= <-]; discriminate].
    apply String.eqb_eq in Hm.
    destruct (Http.json req) as [body|e]; [|intros [= <-]; discriminate].
    destruct (Http.domains body) as [[|d ds]|] eqn:Hd;
      try (intros [= <-]; discriminate).
    destruct (probes_fulfilled tie resolver (d :: ds)) as (rs & Hrs & Hdom).
    rewrite Hrs.
    destruct (Promise.all (Exc.Val <$> rs) completion) as [r|] eqn:Hall; [|discriminate].
    apply all_fulfilled_inv in Hall as ->.
    intros [= <-] _. exists body, (d :: ds), rs. auto 10.
Qed.

Lemma check_domain_answers_witness :
  CheckDomain.handler false (fun _ => Prober.Hangs) [0]
    (Http.mkRequest "GET" (Exc.Val (Http.mkBody None (Some ["a.com"]) None None)))
  = Some (Http.mkResponse 405 (Http.ErrorBody "Method not allowed")) /\
  (exists msg,
      CheckDomain.handler false (fun _ => Prober.Hangs) [0]
        (Http.mkRequest "POST" (Exc.Val (Http.mkBody None (Some []) None None)))
      = Some (Http.mkResponse 400 (Http.ErrorBody msg))).
Proof.
  split.
  - apply (proj1 (check_domain_answers false (fun _ => Prober.Hangs) [0]
                    (Http.mkRequest "GET"
                       (Exc.Val (Http.mkBody None (Some ["a.com"]) None None))))).
    discriminate.
  - apply (proj1 (proj2 (check_domain_answers false (fun _ => Prober.Hangs) [0]
                           (Http.mkRequest "POST"
                              (Exc.Val (Http.mkBody None (Some []) None None)))))
             eq_refl) with (body := Http.mkBody None (Some []) None None);
      [reflexivity|now right].
Defined.

(** X4: the bulk-check handler answers every POST that has a body and
    never throws.  It answers 200 to a POST only when the list is not
    empty, the credentials are set, the registrar answered with a success
    status and a body whose [domains] is an array; the results are then
    the entries of that array, in its order, with [available] turned into
    [Available] or [Unavailable].  A registrar call that fails, is
    answered with an error status, or gives a body that cannot be used is
    answered 500. *)
Theorem godaddy_answers
    (API_KEY API_SECRET : option string)
    (fetch : list string -> Exc.exc GoDaddy.ApiResponse)
    (request : GoDaddy.Request) (b : Http.Body) :
  GoDaddy.body request = Some b ->
  GoDaddy.method request = "POST" ->
  (exists response, GoDaddy.handler API_KEY API_SECRET fetch request = Exc.Val response) /\
  (forall response,
      GoDaddy.handler API_KEY API_SECRET fetch request = Exc.Val response ->
      Http.status response = 200 ->
      exists ds apiResponse items,
        Http.domains b = Some ds /\ ds <> [] /\
        Http.falsy API_KEY = false /\ Http.falsy API_SECRET = false /\
        fetch ds = Exc.Val apiResponse /\ GoDaddy.api_ok apiResponse = true /\
        GoDaddy.api_json apiResponse = Exc.Val (Some items) /\
        Http.payload response = Http.Results (map GoDaddy.convert items)) /\
  (forall ds,
      Http.domains b = Some ds -> ds <> [] ->
      Http.falsy API_KEY = false -> Http.falsy API_SECRET = false ->
      (forall apiResponse items,
          fetch ds = Exc.Val apiResponse -> GoDaddy.api_ok apiResponse = true ->
          GoDaddy.api_json apiResponse = Exc.Val (Some items) ->
          GoDaddy.handler API_KEY API_SECRET fetch request
          = Exc.Val (Http.mkResponse 200 (Http.Results (map GoDaddy.convert items)))) /\
      ((exists e, fetch ds = Exc.Throw e) \/
       (exists apiResponse, fetch ds = Exc.Val apiResponse /\
          (GoDaddy.api_ok apiResponse = false \/
           (exists e, GoDaddy.api_json apiResponse = Exc.Throw e) \/
           GoDaddy.api_json apiResponse = Exc.Val None)) ->
       exists msg, GoDaddy.handler API_KEY API_SECRET fetch request
                   = Exc.Val (Http.mkResponse 500 (Http.ErrorBody msg)))).
Proof.
  intros Hb Hm. unfold GoDaddy.handler. rewrite Hm, Hb. simpl.
  split; [|split].
  - destruct (Http.domains b) as [[|d ds]|]; eauto.
    destruct (Http.falsy API_KEY || Http.falsy API_SECRET); eauto.
    destruct (fetch (d :: ds)) as [[ok text json]|e]; simpl; eauto.
    destruct ok; simpl.
    + destruct json as [[items|]|e]; simpl; eauto.
    + destruct text; simpl; eauto.
  - intros response.
    destruct (Http.domains b) as [[|d ds]|]; try (intros [= <-]; discriminate).
    destruct (Http.falsy API_KEY || Http.falsy API_SECRET) eqn:Hcred;
      [intros [= <-]; discriminate|].
    apply orb_false_iff in Hcred as [Hk Hs].
    destruct (fetch (d :: ds)) as [[ok text json]|e] eqn:Hf; simpl;
      [|intros [= <-]; discriminate].
    destruct ok; simpl.
    + destruct json as [[items|]|e]; simpl; try (intros [= <-]; discriminate).
      intros [= <-] _. exists (d :: ds), (GoDaddy.mkApiResponse true text (Exc.Val (Some items))), items.
      repeat split; auto; discriminate.
    + destruct text; simpl; intros [= <-]; discriminate.
  - intros ds -> Hne Hk Hs. destruct ds as [|d ds]; [congruence|].
    rewrite Hk, Hs. simpl. split.
    + intros apiResponse items -> Hok Hjson. simpl. rewrite Hok. simpl.
      rewrite Hjson. reflexivity.
    + intros [[e ->] | (apiResponse & -> & Hbad)]; simpl; eauto.
      destruct Hbad as [Hok | [[e Hj] | Hj]].
      * rewrite Hok. simpl. destruct (GoDaddy.api_text apiResponse); simpl; eauto.
      * destruct (GoDaddy.api_ok apiResponse); simpl.
        -- rewrite Hj. simpl. eauto.
        -- destruct (GoDaddy.api_text apiResponse); simpl; eauto.
      * destruct (GoDaddy.api_ok apiResponse); simpl.
        -- rewrite Hj. simpl. eauto.
        -- destruct (GoDaddy.api_text apiResponse); simpl; eauto.
Qed.

Lemma godaddy_answers_witness :
  let fetch := fun _ : list string =>
    Exc.Val (GoDaddy.mkApiResponse true (Exc.Val EmptyString)
               (Exc.Val (Some [GoDaddy.mkItem "b.com" true]))) in
  let b := Http.mkBody None (Some ["a.com"; "b.com"]) None None in
  GoDaddy.handler (Some "key") (Some "secret") fetch (GoDaddy.mkRequest "POST" (Some b))
  = Exc.Val (Http.mkResponse 200
               (Http.Results (map GoDaddy.convert [GoDaddy.mkItem "b.com" true]))).
Proof.
  intros fetch b.
  destruct (godaddy_answers (Some "key") (Some "secret") fetch
              (GoDaddy.mkRequest "POST" (Some b)) b eq_refl eq_refl)
    as (_ & _ & H).
  destruct (H ["a.com"; "b.com"] eq_refl) as [Hok _]; [discriminate|reflexivity..|].
  apply (Hok (GoDaddy.mkApiResponse true (Exc.Val EmptyString)
                (Exc.Val (Some [GoDaddy.mkItem "b.com" true])))); reflexivity.
Defined.

(* ===================================================================== *)
(** ** Lines: splitting, joining and trimming *)
(* ===================================================================== *)

Section Lines.
Import Input.

Lemma split_no_sep sep x :
  all_chars (fun c => negb (Ascii.eqb c sep)) x = true -> split sep x = [x].
Proof.
  induction x as [|c x IH]; [reflexivity|].
  cbn [all_chars split]. intros [Hc Hx]%andb_true_iff.
  apply negb_true_iff in Hc. rewrite Hc, (IH Hx). reflexivity.
Qed.

Lemma split_piece sep x rest :
  all_chars (fun c => negb (Ascii.eqb c sep)) x = true ->
  split sep (x ++ String sep rest) = x :: split sep rest.
Proof.
  induction x as [|c x IH].
  - intros _. change (EmptyString ++ String sep rest) with (String sep rest).
    cbn [split]. now rewrite Ascii.eqb_refl.
  - cbn [all_chars]. intros [Hc Hx]%andb_true_iff.
    apply negb_true_iff in Hc. rewrite str_app_cons. cbn [split].
    rewrite Hc, (IH Hx). reflexivity.
Qed.

(** The pieces of a split hold no separator. *)
Lemma split_pieces_no_sep sep s :
  Forall (fun x => all_chars (fun c => negb (Ascii.eqb c sep)) x = true) (split sep s).
Proof.
  induction s as [|c s IH]; cbn [split]; [repeat constructor|].
  destruct (Ascii.eqb c sep) eqn:E; [constructor; [reflexivity|exact IH]|].
  destruct (split sep s) as [|h t]; [repeat constructor; cbn; now rewrite E|].
  inversion IH as [|? ? Hh Ht]; subst. constructor; [|exact Ht].
  cbn. now rewrite E, Hh.
Qed.

(** Joining with line feeds and splitting at them gives the list back. *)
Lemma split_join_LF l :
  l <> [] -> Forall (fun x => all_chars not_LF x = true) l ->
  split "010" (join LF l) = l.
Proof.
  induction l as [|x [|y rest] IH]; [congruence| |]; intros _ Hl.
  - inversion Hl; subst. now apply split_no_sep.
  - inversion Hl as [|? ? Hx Hrest]; subst.
    change (join LF (x :: y :: rest)) with (x ++ String "010" (join LF (y :: rest))).
    rewrite split_piece by exact Hx. f_equal. apply IH; [discriminate|exact Hrest].
Qed.

Lemma trimStart_all P s : all_chars P s = true -> all_chars P (trimStart s) = true.
Proof.
  induction s as [|c s IH]; [reflexivity|]. cbn [all_chars trimStart].
  intros H. destruct (is_space c); [|exact H].
  apply andb_true_iff in H as [_ H]. auto.
Qed.

Lemma trimEnd_all P s : all_chars P s = true -> all_chars P (trimEnd s) = true.
Proof.
  induction s as [|c s IH]; [reflexivity|]. cbn [all_chars trimEnd].
  intros [Hc Hs]%andb_true_iff. specialize (IH Hs).
  destruct (trimEnd s); [destruct (is_space c); cbn; now rewrite ?Hc|].
  cbn [all_chars] in *. now rewrite Hc, IH.
Qed.

Lemma trim_all P s : all_chars P s = true -> all_chars P (trim s) = true.
Proof. intros H. apply trimEnd_all, trimStart_all, H. Qed.

Lemma toLowerCase_not_LF s :
  all_chars not_LF s = true -> all_chars not_LF (toLowerCase s) = true.
Proof.
  induction s as [|c s IH]; [reflexivity|]. cbn [all_chars toLowerCase].
  intros [Hc Hs]%andb_true_iff. rewrite (IH Hs), andb_true_r.
  revert Hc. destruct c as [[] [] [] [] [] [] [] []]; reflexivity || discriminate.
Qed.

Lemma normalizeDomain_not_LF s :
  all_chars not_LF s = true -> all_chars not_LF (normalizeDomain s) = true.
Proof.
  intros H. unfold normalizeDomain, replace_prefix.
  apply split_hd_all, strip_www_all, strip_scheme_all, toLowerCase_not_LF, trim_all, H.
Qed.

(** A trimmed, non-empty string starts with a character that is no space. *)
Lemma trimmed_head x :
  trim x = x -> x <> EmptyString ->
  exists c r, x = String c r /\ is_space c = false.
Proof.
  intros Ht Hne. destruct x as [|c r]; [congruence|]. exists c, r. split; [reflexivity|].
  unfold trim in Ht. apply trimEnd_head in Ht as [r0 Hr0].
  pose proof (trimStart_head (String c r)) as Hh. now rewrite Hr0 in Hh.
Qed.

Lemma trimmed_trimEnd x : trim x = x -> x <> EmptyString -> trimEnd x = x.
Proof.
  intros Ht Hne. destruct (trimmed_head x Ht Hne) as (c & r & -> & Hc).
  unfold trim in Ht. cbn [trimStart] in Ht. now rewrite Hc in Ht.
Qed.

Lemma trimEnd_app a y :
  trimEnd y <> EmptyString -> trimEnd (a ++ y) = a ++ trimEnd y.
Proof.
  intros Hy. induction a as [|c a IH]; [reflexivity|].
  rewrite !str_app_cons. cbn [trimEnd]. rewrite IH.
  destruct (a ++ trimEnd y) as [|c' r'] eqn:E; [|reflexivity].
  destruct a; [|discriminate E].
  change (EmptyString ++ trimEnd y) with (trimEnd y) in E. congruence.
Qed.

(** A list of trimmed, non-empty lines, joined, is a trimmed text. *)
Lemma trim_join_LF l :
  l <> [] -> Forall (fun x => x <> EmptyString /\ trim x = x) l ->
  trim (join LF l) = join LF l.
Proof.
  intros Hne Hl.
  assert (Hend : trimEnd (join LF l) = join LF l /\ join LF l <> EmptyString).
  { revert Hne Hl. induction l as [|x [|y rest] IH]; intros Hne Hl.
    - congruence.
    - inversion Hl as [|? ? [Hx Ht] _]; subst.
      change (join LF [x]) with x. split; [now apply trimmed_trimEnd|exact Hx].
    - inversion Hl as [|? ? [Hx Ht] Hrest]; subst.
      destruct IH as [IH1 IH2]; [discriminate|exact Hrest|].
      change (join LF (x :: y :: rest)) with (x ++ (LF ++ join LF (y :: rest))).
      split.
      + rewrite trimEnd_app.
        * rewrite trimEnd_app by (rewrite IH1; exact IH2). now rewrite IH1.
        * rewrite trimEnd_app by (rewrite IH1; exact IH2).
          unfold LF. rewrite str_app_cons. discriminate.
      + destruct x; [congruence|discriminate]. }
  destruct Hend as [Hend _]. unfold trim.
  assert (Hstart : trimStart (join LF l) = join LF l).
  { destruct l as [|x rest]; [congruence|].
    inversion Hl as [|? ? [Hx Ht] _]; subst.
    destruct (trimmed_head x Ht Hx) as (c & r & -> & Hc).
    destruct rest as [|y rest].
    - change (join LF [String c r]) with (String c r). cbn [trimStart]. now rewrite Hc.
    - change (join LF (String c r :: y :: rest))
        with (String c (r ++ (LF ++ join LF (y :: rest)))).
      cbn [trimStart]. now rewrite Hc. }
  now rewrite Hstart.
Qed.

End Lines.

(* ===================================================================== *)
(** ** The text field and the generated list *)
(* ===================================================================== *)

Section InputFacts.
Import Input.

Lemma rawDomains_not_LF value :
  Forall (fun x => all_chars not_LF x = true) (rawDomains value).
Proof.
  apply Forall_forall. intros d. unfold rawDomains.
  rewrite list_elem_of_filter, list_elem_of_fmap. intros [_ (raw & -> & Hraw)].
  apply trim_all.
  pose proof (split_pieces_no_sep "010" value) as Hp.
  rewrite Forall_forall in Hp. now apply Hp.
Qed.

Lemma checker_domains_not_LF value :
  Forall (fun x => all_chars not_LF x = true) (checker_domains value).
Proof.
  apply Forall_forall. intros d. unfold checker_domains.
  rewrite Set_spread_elem, list_elem_of_fmap. intros (raw & -> & Hraw).
  apply normalizeDomain_not_LF.
  pose proof (rawDomains_not_LF value) as Hp. rewrite Forall_forall in Hp. now apply Hp.
Qed.

Lemma Set_spread_nil l : Set_spread l = [] <-> l = [].
Proof.
  split; [|now intros ->].
  destruct l as [|x l]; [reflexivity|]. intros H.
  assert (Hx : x ∈ Set_spread (x :: l)) by (apply Set_spread_elem; left).
  rewrite H in Hx. inversion Hx.
Qed.

Lemma checker_domains_nil value : checker_domains value = [] <-> rawDomains value = [].
Proof.
  unfold checker_domains. rewrite Set_spread_nil.
  destruct (rawDomains value); [tauto|]. split; discriminate.
Qed.

(** No line is kept exactly when every line is blank. *)
Lemma rawDomains_nil value :
  rawDomains value = [] <->
  Forall (fun line => trim line = EmptyString) (split "010" value).
Proof.
  unfold rawDomains. rewrite Forall_forall. split.
  - intros H line Hline.
    destruct (trim line) as [|c r] eqn:E; [reflexivity|].
    assert (Hin : String c r ∈ filter (fun d => truthy d = true) (map trim (split "010" value))).
    { apply list_elem_of_filter. split; [reflexivity|].
      apply list_elem_of_fmap. exists line. auto. }
    rewrite H in Hin. inversion Hin.
  - intros H.
    destruct (filter (fun d => truthy d = true) (map trim (split "010" value)))
      as [|d l] eqn:E; [reflexivity|].
    assert (Hin : d ∈ filter (fun d => truthy d = true) (map trim (split "010" value)))
      by (rewrite E; left).
    apply list_elem_of_filter in Hin as [Ht (line & -> & Hline)%list_elem_of_fmap].
    rewrite (H line Hline) in Ht. discriminate.
Qed.

Lemma filter_truthy_all l :
  Forall (fun x => x <> EmptyString) l -> filter (fun d => truthy d = true) l = l.
Proof.
  induction 1 as [|x l Hx _ IH]; [reflexivity|].
  rewrite filter_cons_True by now apply truthy_nonempty. now rewrite IH.
Qed.

End InputFacts.

(** X5: leaving the text field rewrites it so that its lines are exactly
    the deduplicated normal forms of its non-blank lines, the list the
    click handler would check; a field with blank lines only is left as it
    is. *)
Theorem blur_lines (value : string) :
  (rawDomains value <> [] ->
   split "010" (Input.blur value) = checker_domains value) /\
  (rawDomains value = [] -> Input.blur value = value).
Proof.
  unfold Input.blur. split.
  - intros Hne. destruct (rawDomains value) as [|d l] eqn:E; [congruence|].
    cbn [length Nat.ltb Nat.leb]. fold (checker_domains value) in *.
    assert (Hc : checker_domains value = Set_spread (map normalizeDomain (d :: l)))
      by (unfold checker_domains; now rewrite E).
    rewrite <- Hc. apply split_join_LF.
    + rewrite checker_domains_nil, E. discriminate.
    + apply checker_domains_not_LF.
  - intros ->. reflexivity.
Qed.

Lemma blur_lines_witness :
  split "010" (Input.blur ("https://www.A.com/x" ++ Input.LF ++ " " ++ Input.LF ++ "a.com"))
  = checker_domains ("https://www.A.com/x" ++ Input.LF ++ " " ++ Input.LF ++ "a.com").
Proof.
  apply (proj1 (blur_lines ("https://www.A.com/x" ++ Input.LF ++ " " ++ Input.LF ++ "a.com"))).
  discriminate.
Defined.

(** X6: in checker mode the click handler stops with the alert, before any
    request, exactly when every line of the text field is blank. *)
Theorem analyze_alerts_on_blank_input
    (JSON_parse : string -> option Json.Json) (copy_cat_buttons : Json.Json -> nat)
    (B : nat) (env : Client.Env) (ui : Client.Ui) :
  Client.currentMode ui = Client.checker ->
  (Client.analyze JSON_parse copy_cat_buttons B env ui
   = Some (Client.mkReport (Client.Alerted "Please paste a list of domains.") None)
   <->
   Forall (fun line => trim line = EmptyString) (split "010" (Client.domainInput ui))).
Proof.
  intros Hm. unfold Client.analyze. rewrite Hm.
  rewrite <- rawDomains_nil, <- checker_domains_nil.
  destruct (checker_domains (Client.domainInput ui)) as [|d l] eqn:E.
  - split; reflexivity.
  - cbn [length Nat.eqb]. unfold Client.run_checks.
    split; [|discriminate].
    destruct (Client.check_loop _ _ _ _ _ _) as [[exit st]|]; discriminate.
Qed.

Lemma analyze_alerts_on_blank_input_witness :
  Client.analyze (fun _ => None) (fun _ => 0) 50
    (Client.mkEnv (Exc.Val None) (fun _ => false)
       (fun _ _ => Exc.Throw (Exc.TypeError "fetch failed")) (Exc.Val None))
    (Client.mkUi Client.checker ("  " ++ Input.LF ++ Input.LF ++ " ") "" "")
  = Some (Client.mkReport (Client.Alerted "Please paste a list of domains.") None).
Proof.
  apply (proj2 (analyze_alerts_on_blank_input (fun _ => None) (fun _ => 0) 50 _
                  (Client.mkUi Client.checker ("  " ++ Input.LF ++ Input.LF ++ " ") "" "")
                  eq_refl)).
  repeat constructor.
Defined.

(** X7: a response of the model that lists names one per line, each of
    them non-empty and without white space around it, is parsed back to
    exactly that list, in order and with its duplicates, by
    [generateDomainIdeas] and by the [generate] mode of the orchestrator. *)
Theorem generated_list_parsed
    (l : list string) (env : Client.Env)
    (tie : bool) (resolver : string -> Prober.Network) (completion : list nat)
    (API_KEY : option string) (req : Http.Request) (body : Http.Body) :
  l <> [] ->
  Forall (fun x => x <> EmptyString /\ trim x = x /\ all_chars Input.not_LF x = true) l ->
  (Client.generated env = Exc.Val (Some (Input.join Input.LF l)) ->
   Client.generateDomainIdeas env = Exc.Val l) /\
  (Http.method req = "POST" -> Http.falsy API_KEY = false ->
   Http.json req = Exc.Val body -> Http.mode body = Some "generate" ->
   Http.falsy (Http.keywords body) = false -> Http.falsy (Http.tlds body) = false ->
   Orchestrator.handler tie resolver completion API_KEY
     (Exc.Val (Some (Input.join Input.LF l))) req
   = Some (Http.mkResponse 200 (Http.Domains l))).
Proof.
  intros Hne Hl.
  assert (Hparse : Http.parse_lines (Some (Input.join Input.LF l)) = Exc.Val l).
  { unfold Http.parse_lines. rewrite trim_join_LF, split_join_LF, filter_truthy_all; auto.
    - eapply Forall_impl; [exact Hl|]. simpl. tauto.
    - eapply Forall_impl; [exact Hl|]. simpl. tauto.
    - eapply Forall_impl; [exact Hl|]. simpl. tauto. }
  split.
  - intros Hg. rewrite generateDomainIdeas_spec, Hg.
    unfold Http.parse_lines in Hparse. congruence.
  - intros Hm Hk Hj Hmode Hkw Htl.
    unfold Orchestrator.handler, Orchestrator.dispatch.
    rewrite Hm, Hk, Hj. simpl. rewrite Hmode, Hkw, Htl. simpl.
    unfold Http.parse_lines in Hparse. injection Hparse as ->. reflexivity.
Qed.

Lemma generated_list_parsed_witness :
  Client.generateDomainIdeas
    (Client.mkEnv (Exc.Val (Some (Input.join Input.LF ["a.com"; "b.io"; "a.com"])))
       (fun _ => false) (fun _ _ => Exc.Throw (Exc.TypeError "fetch failed"))
       (Exc.Val None))
  = Exc.Val ["a.com"; "b.io"; "a.com"].
Proof.
  destruct (generated_list_parsed ["a.com"; "b.io"; "a.com"]
              (Client.mkEnv
                 (Exc.Val (Some (Input.join Input.LF ["a.com"; "b.io"; "a.com"])))
                 (fun _ => false) (fun _ _ => Exc.Throw (Exc.TypeError "fetch failed"))
                 (Exc.Val None))
              false (fun _ => Prober.Hangs) [] None
              (Http.mkRequest "GET" (Exc.Throw Exc.SyntaxError))
              (Http.mkBody None None None None)) as [H _].
  - discriminate.
  - repeat constructor; discriminate.
  - apply H. reflexivity.
Defined.

(* ===================================================================== *)
(** ** What the chunk loops collect *)
(* ===================================================================== *)

Section Collected.
Import Exc Json Prober.

Lemma availableIn_app (a b : list AvailabilityResult) :
  availableIn (a ++ b) = (availableIn a ++ availableIn b)%list.
Proof. unfold availableIn. now rewrite filter_app, map_app. Qed.

End Collected.

(** X8: the streaming handler never writes a frame.  Anything but a POST
    is answered 405 and a POST whose body cannot be read 500; every other
    request gets a response whose stream is put in the errored state by
    the [TypeError] of [controller.getWriter()], which [start] calls
    before its [try]: no status, progress, result or error frame is
    written and the stream is not closed, whatever the body, the resolver
    and the model do. *)
Theorem stream_errored
    (JSON_parse : string -> option Json.Json) (B : nat)
    (resolver : string -> Exc.exc Json.Json) (completion : nat -> list nat)
    (generated categorized : Exc.exc (option string)) (req : Http.Request) :
  match Stream.handler JSON_parse B resolver completion generated categorized req with
  | Stream.Plain response =>
      Http.status response = 405 /\ Http.method req <> "POST" \/
      Http.status response = 500 /\ Http.method req = "POST" /\
      (exists e, Http.json req = Exc.Throw e)
  | Stream.Streamed stream =>
      Http.method req = "POST" /\
      (exists body, Http.json req = Exc.Val body) /\
      exists e, stream = Exc.Throw e /\ Exc.name e = "TypeError"
  end.
Proof.
  unfold Stream.handler.
  destruct (String.eqb (Http.method req) "POST") eqn:Hm; cbn [negb].
  - apply String.eqb_eq in Hm.
    destruct (Http.json req) as [body|e]; [|right; eauto 6].
    split; [exact Hm|]. split; [eauto|]. eexists. split; reflexivity.
  - apply String.eqb_neq in Hm. left. auto.
Qed.

Section ClientCollected.
Import Exc Json Prober Client.

(** X9: whatever the backend answers and whenever the signal is set, a run
    of the browser's chunk loop ends; the batches it posted, put end to
    end, are an initial part of the list to check; the responses it holds
    are, in order, what the backend call returned for the batches posted,
    every batch having its response but one whose call threw; and the
    available domains it holds are those with status [Available] in these
    responses, in the order of receipt. *)
Theorem client_run_collects (B : nat) (env : Env) (domains : list string) :
  1 <= B ->
  exists exit st,
    check_loop B env domains (S (length domains)) 0 initial = Some (exit, st) /\
    concat (map snd (requests st)) `prefix_of` domains /\
    Forall2 (fun request results =>
               checkDomainsWithBackend env request.1 request.2 = Val results)
      (take (length (responses st)) (requests st)) (responses st) /\
    length (requests st)
    = (match exit with Raised _ => S (length (responses st)) | _ => length (responses st) end) /\
    allAvailableDomains st = availableIn (concat (responses st)).
Proof.
  intros HB.
  destruct (check_loop_terminates B env domains HB (S (length domains)) 0
              (initial)) as [[exit st] Hrun]; [lia|].
  pose proof (check_loop_rule B env domains
    (fun i st => concat (map snd (requests st)) = take i domains /\
                 Forall2 (fun request results =>
                            checkDomainsWithBackend env request.1 request.2 = Val results)
                   (requests st) (responses st) /\
                 allAvailableDomains st = availableIn (concat (responses st)))) as Hrule.
  destruct (Hrule) with (fuel := S (length domains)) (i := 0) (st := initial)
    (exit := exit) (st' := st) as (i' & st0 & (Hreq & Hans & Hav) & Hexit).
  { intros i s results (Hreq & Hans & Hav) Hlt _ Hbk. unfold collect, post.
    cbn [requests allAvailableDomains responses]. split; [|split].
    - rewrite map_app, concat_app, Hreq. cbn [map concat snd]. rewrite app_nil_r.
      unfold Js.slice. replace (i + B - i) with B by lia. apply take_take_drop.
    - apply Forall2_app; [exact Hans|]. constructor; [exact Hbk|constructor].
    - rewrite concat_app, availableIn_app, Hav. cbn [concat]. now rewrite app_nil_r. }
  { split; [reflexivity|]. split; [constructor|reflexivity]. }
  { exact Hrun. }
  pose proof (Forall2_length _ _ _ Hans) as Hlen.
  exists exit, st. split; [exact Hrun|].
  destruct exit as [| |e].
  - destruct Hexit as [_ ->]. rewrite Hreq, <- Hlen, firstn_all.
    split; [apply prefix_take|]. auto.
  - destruct Hexit as (_ & _ & ->). cbn [mark_cancelled requests responses allAvailableDomains].
    rewrite Hreq, <- Hlen, firstn_all. split; [apply prefix_take|]. auto.
  - destruct Hexit as (_ & _ & _ & ->). unfold post.
    cbn [requests allAvailableDomains responses].
    split; [|split; [|split; [|exact Hav]]].
    + rewrite map_app, concat_app, Hreq. cbn [map concat snd]. rewrite app_nil_r.
      unfold Js.slice. replace (i' + B - i') with B by lia.
      rewrite take_take_drop. apply prefix_take.
    + rewrite <- Hlen, take_app_length. exact Hans.
    + rewrite length_app. cbn. lia.
Qed.

End ClientCollected.

Lemma client_run_collects_witness :
  let env := Client.mkEnv (Exc.Val None) (fun i => (4 <=? i)%nat)
               (fun _ batch => Exc.Val (Http.mkResponse 200
                  (Http.Results (map (fun d => Prober.mkResult d Prober.Available) batch))))
               (Exc.Val None) in
  let domains := ["a.com"; "b.io"; "c.org"; "d.net"; "e.dev"] in
  exists exit st,
    Client.check_loop 2 env domains 6 0 Client.initial = Some (exit, st) /\
    concat (map snd (Client.requests st)) `prefix_of` domains /\
    Forall2 (fun request results =>
               Client.checkDomainsWithBackend env request.1 request.2 = Exc.Val results)
      (take (length (Client.responses st)) (Client.requests st)) (Client.responses st) /\
    length (Client.requests st)
    = (match exit with
       | Client.Raised _ => S (length (Client.responses st))
       | _ => length (Client.responses st)
       end) /\
    Client.allAvailableDomains st = Prober.availableIn (concat (Client.responses st)).
Proof.
  intros env domains. apply (client_run_collects 2 env domains). lia.
Defined.

Example client_run_cancelled_after_two_chunks :
  Client.check_loop 2
    (Client.mkEnv (Exc.Val None) (fun i => (4 <=? i)%nat)
       (fun _ batch => Exc.Val (Http.mkResponse 200
          (Http.Results (map (fun d => Prober.mkResult d Prober.Available) batch))))
       (Exc.Val None))
    ["a.com"; "b.io"; "c.org"; "d.net"; "e.dev"] 6 0 Client.initial
  = Some (Client.Broke,
          Client.mkState 4 ["a.com"; "b.io"; "c.org"; "d.net"] true
            [(0, ["a.com"; "b.io"]); (2, ["c.org"; "d.net"])]
            [[Prober.mkResult "a.com" Prober.Available;
              Prober.mkResult "b.io" Prober.Available];
             [Prober.mkResult "c.org" Prober.Available;
              Prober.mkResult "d.net" Prober.Available]]
            [0; 2; 4]).
Proof. reflexivity. Qed.

(* ===================================================================== *)
(** ** Code fences ([safeJsonParse], src/index.js) *)
(* ===================================================================== *)

Section Fences.
Import Js Exc Json Client Fence.

Lemma trimStart_space_app ws s :
  all_chars is_space ws = true -> trimStart (ws ++ s) = trimStart s.
Proof.
  induction ws as [|c ws IH]; [reflexivity|]. cbn [all_chars].
  intros [Hc Hws]%andb_true_iff. rewrite str_app_cons. cbn [trimStart].
  rewrite Hc. auto.
Qed.

Lemma trimStart_app_head b c y :
  is_space c = false -> trimStart (b ++ String c y) = trimStart b ++ String c y.
Proof.
  intros Hc. induction b as [|x b IH].
  - change (trimStart (String c y) = String c y). cbn [trimStart]. now rewrite Hc.
  - rewrite str_app_cons. cbn [trimStart]. destruct (is_space x); [exact IH|reflexivity].
Qed.

Lemma trimEnd_space ws : all_chars is_space ws = true -> trimEnd ws = EmptyString.
Proof.
  induction ws as [|c ws IH]; [reflexivity|]. cbn [all_chars trimEnd].
  intros [Hc Hws]%andb_true_iff. now rewrite IH, Hc.
Qed.

Lemma startsWith_fence_head c s :
  not_backtick c = true -> startsWith "```" (String c s) = false.
Proof.
  unfold not_backtick. cbn [startsWith]. rewrite (Ascii.eqb_sym c).
  now destruct (Ascii.eqb "`" c).
Qed.

Lemma strip_closing_fence_plain s :
  all_chars not_backtick s = true -> strip_closing_fence s = s.
Proof.
  induction s as [|c s IH]; [reflexivity|]. cbn [all_chars].
  intros [Hc Hs]%andb_true_iff. cbn [strip_closing_fence].
  rewrite (startsWith_fence_head c s Hc). cbn [andb]. now rewrite IH.
Qed.

Lemma strip_closing_fence_closed s :
  all_chars not_backtick s = true -> strip_closing_fence (s ++ "```") = s.
Proof.
  induction s as [|c s IH]; [reflexivity|]. cbn [all_chars].
  intros [Hc Hs]%andb_true_iff. rewrite str_app_cons. cbn [strip_closing_fence].
  rewrite (startsWith_fence_head c _ Hc). cbn [andb]. now rewrite IH.
Qed.

Lemma strip_fences_plain s :
  all_chars not_backtick s = true -> strip_fences s = s.
Proof.
  intros Hs. unfold strip_fences.
  destruct s as [|c s']; [reflexivity|].
  assert (Hsw : startsWith "```json" (String c s') = false).
  { cbn [all_chars] in Hs. apply andb_true_iff in Hs as [Hc _].
    unfold not_backtick in Hc. cbn [startsWith]. rewrite (Ascii.eqb_sym c) in Hc.
    now destruct (Ascii.eqb "`" c). }
  rewrite Hsw. now apply strip_closing_fence_plain.
Qed.

Lemma trim_fenced before inner body after :
  all_chars is_space before = true ->
  all_chars is_space after = true ->
  trim (fenced before inner body after) = "```json" ++ inner ++ body ++ "```".
Proof.
  intros Hb Ha. unfold trim, fenced. rewrite (trimStart_space_app _ _ Hb).
  change (trimStart ("```json" ++ inner ++ body ++ "```" ++ after))
    with ("```json" ++ inner ++ body ++ "```" ++ after).
  assert (Hend : trimEnd ("```" ++ after) = "```").
  { change ("```" ++ after) with (String "`" (String "`" (String "`" after))).
    cbn [trimEnd]. now rewrite (trimEnd_space _ Ha). }
  replace ("```json" ++ inner ++ body ++ "```" ++ after)
    with (("```json" ++ inner ++ body) ++ "```" ++ after)
    by now rewrite !str_app_assoc.
  rewrite trimEnd_app by (rewrite Hend; discriminate).
  now rewrite Hend, !str_app_assoc.
Qed.

Lemma strip_fences_fenced inner body :
  all_chars is_space inner = true ->
  all_chars not_backtick body = true ->
  strip_fences ("```json" ++ inner ++ body ++ "```") = trimStart body.
Proof.
  intros Hi Hb. unfold strip_fences.
  change (startsWith "```json" ("```json" ++ inner ++ body ++ "```")) with true.
  change (slice_from 7 ("```json" ++ inner ++ body ++ "```"))
    with (inner ++ body ++ "```").
  cbv iota. rewrite (trimStart_space_app _ _ Hi).
  rewrite trimStart_app_head by reflexivity.
  apply strip_closing_fence_closed, trimStart_all, Hb.
Qed.

End Fences.

(** X10: [safeJsonParse] hands to [JSON.parse] the body of a fenced answer
    and a text without backtick as it is.  For an answer made of white
    space, the opening fence [```json], white space, a body without
    backtick, the closing fence and white space, the parsed text is the
    body without its leading white space; for a text without backtick it
    is the trimmed text.  In both cases the result is the parsed value, or
    the error "Invalid JSON response from AI model." when the parser
    rejects that text. *)
Theorem safeJsonParse_fences
    (JSON_parse : string -> option Json.Json) (before inner body after : string) :
  Js.all_chars Js.is_space before = true ->
  Js.all_chars Js.is_space inner = true ->
  Js.all_chars Js.is_space after = true ->
  Js.all_chars Fence.not_backtick body = true ->
  Client.safeJsonParse JSON_parse (Some (Fence.fenced before inner body after))
  = match JSON_parse (Js.trimStart body) with
    | Some v => Exc.Val v
    | None => Exc.Throw (Exc.Error_ "Invalid JSON response from AI model.")
    end /\
  Client.safeJsonParse JSON_parse (Some body)
  = match JSON_parse (Js.trim body) with
    | Some v => Exc.Val v
    | None => Exc.Throw (Exc.Error_ "Invalid JSON response from AI model.")
    end.
Proof.
  intros Hb Hi Ha Hbody. unfold Client.safeJsonParse. split.
  - now rewrite (trim_fenced _ _ _ _ Hb Ha), (strip_fences_fenced _ _ Hi Hbody).
  - now rewrite (strip_fences_plain _ (trim_all _ _ Hbody)).
Qed.

Lemma safeJsonParse_fences_witness :
  let LF := String "010" EmptyString in
  Client.safeJsonParse
    (fun s => if String.eqb s ("[1]" ++ LF) then Some (Json.JArr [Json.JNum 1]) else None)
    (Some (Fence.fenced " " LF ("[1]" ++ LF) LF))
  = Exc.Val (Json.JArr [Json.JNum 1]).
Proof.
  intros LF.
  exact (proj1 (safeJsonParse_fences
                  (fun s => if String.eqb s ("[1]" ++ LF)
                            then Some (Json.JArr [Json.JNum 1]) else None)
                  " " LF ("[1]" ++ LF) LF eq_refl eq_refl eq_refl eq_refl)).
Defined.

(* ===================================================================== *)
(** ** The prober of the streaming handlers *)
(* ===================================================================== *)


(** X12: the prober with the abort timer and the prober of the streaming
    handlers give the same result whenever the request settles before the
    timer fires and the failure, if there is one, is not an abort: on an
    answer that arrives in time they classify its body alike, and on a
    request that fails in time both say [Error]. *)
Theorem probers_agree_before_timer
    (tie : bool) (delay : nat) (body : Exc.exc Json.Json) (e : Exc.error) (d : string) :
  Prober.timer_first tie delay = false ->
  (forall e', body = Exc.Throw e' -> Exc.name e' <> "AbortError") ->
  Exc.name e <> "AbortError" ->
  Prober.checkDomainAvailability tie (fun _ => Prober.Responds delay body) d
  = Prober.checkDomainAvailability_stream (fun _ => body) d /\
  Prober.checkDomainAvailability tie (fun _ => Prober.Rejects delay e) d
  = Prober.checkDomainAvailability_stream (fun _ => Exc.Throw e) d.
Proof.
  intros Ht Hbody He.
  unfold Prober.checkDomainAvailability, Prober.checkDomainAvailability_stream,
    Prober.fetch_with_signal.
  rewrite Ht. split.
  - destruct body as [data|e']; cbn.
    + destruct data; try reflexivity.
      cbn. destruct (Json.strict_eq_num _ 3); reflexivity.
    + specialize (Hbody e' eq_refl). apply String.eqb_neq in Hbody.
      now rewrite Hbody.
  - cbn. apply String.eqb_neq in He. now rewrite He.
Qed.

Lemma probers_agree_before_timer_witness :
  Prober.checkDomainAvailability true
    (fun _ => Prober.Responds 120 (Exc.Val (Json.JObj [("Status", Json.JNum 3)]))) "a.com"
  = Prober.checkDomainAvailability_stream
      (fun _ => Exc.Val (Json.JObj [("Status", Json.JNum 3)])) "a.com".
Proof.
  apply (probers_agree_before_timer true 120
           (Exc.Val (Json.JObj [("Status", Json.JNum 3)]))
           (Exc.TypeError "fetch failed") "a.com").
  - reflexivity.
  - intros e' H. discriminate H.
  - cbn. discriminate.
Defined.

(* ===================================================================== *)
(** ** Spellings of one host ([normalizeDomain], src/index.js) *)
(* ===================================================================== *)

Section Spellings.
Import Js Normalizer Url.

Lemma is_space_lower c : is_space (lower_char c) = is_space c.
Proof. destruct c as [[] [] [] [] [] [] [] []]; reflexivity. Qed.

Lemma host_char_lower c : host_char (lower_char c) = host_char c.
Proof. destruct c as [[] [] [] [] [] [] [] []]; reflexivity. Qed.

Lemma toLowerCase_app a b : toLowerCase (a ++ b) = toLowerCase a ++ toLowerCase b.
Proof.
  induction a as [|c a IH]; [reflexivity|].
  rewrite str_app_cons. cbn [toLowerCase]. now rewrite IH.
Qed.

Lemma all_chars_lower P s :
  (forall c, P (lower_char c) = P c) ->
  all_chars P (toLowerCase s) = all_chars P s.
Proof.
  intros HP. induction s as [|c s IH]; [reflexivity|].
  cbn [toLowerCase all_chars]. now rewrite HP, IH.
Qed.

Lemma all_chars_impl (P Q : ascii -> bool) s :
  (forall c, P c = true -> Q c = true) ->
  all_chars P s = true -> all_chars Q s = true.
Proof.
  intros HPQ. induction s as [|c s IH]; [reflexivity|]. cbn [all_chars].
  intros [Hc Hs]%andb_true_iff. now rewrite (HPQ c Hc), IH.
Qed.

Lemma toLowerCase_trimStart s : toLowerCase (trimStart s) = trimStart (toLowerCase s).
Proof.
  induction s as [|c s IH]; [reflexivity|].
  cbn [trimStart toLowerCase]. rewrite is_space_lower.
  destruct (is_space c); [exact IH|reflexivity].
Qed.

Lemma toLowerCase_trimEnd s : toLowerCase (trimEnd s) = trimEnd (toLowerCase s).
Proof.
  induction s as [|c s IH]; [reflexivity|].
  cbn [trimEnd toLowerCase]. rewrite <- IH, is_space_lower.
  destruct (trimEnd s) as [|c' r']; cbn [toLowerCase]; [|reflexivity].
  destruct (is_space c); reflexivity.
Qed.

Lemma toLowerCase_trim s : toLowerCase (trim s) = trim (toLowerCase s).
Proof. unfold trim. now rewrite toLowerCase_trimEnd, toLowerCase_trimStart. Qed.

Lemma trimEnd_app_space t ws :
  all_chars is_space ws = true -> trimEnd (t ++ ws) = trimEnd t.
Proof.
  intros Hws. induction t as [|c t IH].
  - change (trimEnd ws = EmptyString). now apply trimEnd_space.
  - rewrite str_app_cons. cbn [trimEnd]. now rewrite IH.
Qed.

Lemma trim_space_around ws1 s ws2 :
  all_chars is_space ws1 = true -> all_chars is_space ws2 = true ->
  trim (ws1 ++ s ++ ws2) = trim s.
Proof.
  intros H1 H2. unfold trim. rewrite (trimStart_space_app _ _ H1).
  induction s as [|c s IH].
  - change (trimEnd (trimStart ws2) = EmptyString).
    apply trimEnd_space, trimStart_all, H2.
  - rewrite str_app_cons. cbn [trimStart]. destruct (is_space c); [exact IH|].
    rewrite <- str_app_cons. now apply trimEnd_app_space.
Qed.

Lemma host_char_not_space c : host_char c = true -> is_space c = false.
Proof.
  unfold host_char. intros [[H _]%andb_true_iff _]%andb_true_iff.
  now apply negb_true_iff.
Qed.

Lemma host_char_not_slash c : host_char c = true -> not_slash c = true.
Proof.
  unfold host_char, not_slash. now intros [[_ H]%andb_true_iff _]%andb_true_iff.
Qed.

Lemma trimEnd_host s : all_chars host_char s = true -> trimEnd s = s.
Proof.
  induction s as [|c s IH]; [reflexivity|]. cbn [all_chars trimEnd].
  intros [Hc Hs]%andb_true_iff. rewrite (IH Hs).
  destruct s; [|reflexivity]. now rewrite (host_char_not_space c Hc).
Qed.

Lemma trimEnd_path p : trimEnd (String "/" p) = String "/" (trimEnd p).
Proof. cbn [trimEnd]. now destruct (trimEnd p). Qed.

(** Trimming the lower-case line leaves the prefix, the host and what is
    left of the path. *)
Lemma trim_core pre L T :
  match pre ++ L with
  | EmptyString => False
  | String c _ => is_space c = false
  end ->
  L <> EmptyString -> all_chars host_char L = true ->
  (T = EmptyString \/ exists p, T = String "/" p) ->
  exists T', trim (pre ++ L ++ T) = pre ++ L ++ T' /\
             (T' = EmptyString \/ exists p, T' = String "/" p).
Proof.
  intros Hhead HL Hhost HT. unfold trim.
  assert (Hstart : trimStart (pre ++ L ++ T) = pre ++ L ++ T).
  { rewrite <- str_app_assoc. destruct (pre ++ L) as [|c r]; [easy|].
    rewrite str_app_cons. cbn [trimStart]. now rewrite Hhead. }
  rewrite Hstart. destruct HT as [->|[p ->]].
  - exists EmptyString. split; [|now left].
    rewrite !str_app_nil_r. rewrite trimEnd_app; rewrite (trimEnd_host _ Hhost); auto.
  - exists (String "/" (trimEnd p)). split; [|eauto].
    rewrite <- !str_app_assoc. rewrite trimEnd_app; rewrite trimEnd_path; [reflexivity|].
    discriminate.
Qed.

Lemma startsWith_eq p s : startsWith p s = true -> exists r, s = p ++ r.
Proof.
  revert s; induction p as [|a p IH]; intros s; [now exists s|].
  destruct s as [|b s]; cbn [startsWith]; [discriminate|].
  destruct (Ascii.eqb a b) eqn:E; [|discriminate].
  apply Ascii.eqb_eq in E. subst b. intros [r ->]%IH. now exists r.
Qed.

Lemma first_delim_app L X :
  all_chars host_char L = true -> first_delim (L ++ X) = first_delim X.
Proof.
  induction L as [|c L IH]; [reflexivity|]. cbn [all_chars].
  intros [Hc HL]%andb_true_iff. rewrite str_app_cons. cbn [first_delim].
  unfold host_char in Hc.
  apply andb_true_iff in Hc as [[_ H1]%andb_true_iff H2].
  apply negb_true_iff in H1, H2. rewrite H1, H2. cbn [orb]. auto.
Qed.

Lemma no_scheme L T :
  all_chars host_char L = true ->
  (T = EmptyString \/ exists p, T = String "/" p) ->
  strip_scheme (L ++ T) = L ++ T.
Proof.
  intros HL HT.
  assert (Hd : first_delim (L ++ T) <> Some ":"%char).
  { rewrite (first_delim_app _ _ HL). destruct HT as [->|[p ->]]; discriminate. }
  unfold strip_scheme.
  destruct (startsWith "https://" (L ++ T)) eqn:E1.
  { apply startsWith_eq in E1 as [r E1]. rewrite E1 in Hd. now contradiction Hd. }
  destruct (startsWith "http://" (L ++ T)) eqn:E2; [|reflexivity].
  apply startsWith_eq in E2 as [r E2]. rewrite E2 in Hd. now contradiction Hd.
Qed.

(** When [p] starts [a ++ b] without starting [a], the first character of
    [b] is one of [p]. *)
Lemma startsWith_app_tail p a b :
  startsWith p (a ++ b) = true -> startsWith p a = false ->
  match b with
  | EmptyString => False
  | String c _ => all_chars (fun x => negb (Ascii.eqb x c)) p = false
  end.
Proof.
  revert a; induction p as [|x p IH]; intros a; [discriminate|].
  destruct a as [|y a].
  - change (EmptyString ++ b) with b. destruct b as [|c b]; [discriminate|].
    cbn [startsWith all_chars]. destruct (Ascii.eqb x c); [reflexivity|discriminate].
  - rewrite str_app_cons. cbn [startsWith].
    destruct (Ascii.eqb x y); [|discriminate].
    intros H1 H2. specialize (IH a H1 H2). destruct b as [|c b]; [exact IH|].
    cbn [all_chars]. rewrite IH. apply andb_false_r.
Qed.

Lemma no_www L T :
  startsWith "www." L = false ->
  (T = EmptyString \/ exists p, T = String "/" p) ->
  strip_www (L ++ T) = L ++ T.
Proof.
  intros HL HT. unfold strip_www.
  destruct (startsWith "www." (L ++ T)) eqn:E; [|reflexivity].
  pose proof (startsWith_app_tail _ _ _ E HL) as H.
  destruct HT as [->|[p ->]]; [contradiction|discriminate H].
Qed.

Lemma split_hd_path L p :
  all_chars not_slash L = true ->
  hd EmptyString (split "/" (L ++ String "/" p)) = L.
Proof.
  induction L as [|c L IH]; [reflexivity|]. cbn [all_chars].
  intros [Hc HL]%andb_true_iff. specialize (IH HL).
  rewrite str_app_cons. cbn [split]. unfold not_slash in Hc.
  apply negb_true_iff in Hc. rewrite Hc.
  destruct (split "/" (L ++ String "/" p)) as [|h t]; cbn [hd] in *; congruence.
Qed.

End Spellings.

(** X13: the normalizer maps the spellings of a host to one form.  A line
    made of white space, an optional scheme [http://] or [https://] in
    any case, an optional [www.] in any case, a host name (not empty, with
    no white space, slash or colon), an optional path that starts with a
    slash, and white space, is normalized to the host name in lower case,
    provided the host name does not itself start with [www.] when none
    was put in front of it. *)
Theorem normalizeDomain_spellings (before scheme www host tail after : string) :
  Js.all_chars Js.is_space before = true ->
  Js.all_chars Js.is_space after = true ->
  Js.toLowerCase scheme = "" \/ Js.toLowerCase scheme = "http://" \/
    Js.toLowerCase scheme = "https://" ->
  Js.toLowerCase www = "" \/ Js.toLowerCase www = "www." ->
  host <> "" ->
  Js.all_chars Url.host_char host = true ->
  (www = "" -> Js.startsWith "www." (Js.toLowerCase host) = false) ->
  tail = "" \/ Js.startsWith "/" tail = true ->
  Normalizer.normalizeDomain (Url.spelled before scheme www host tail after)
  = Js.toLowerCase host.
Proof.
  intros Hb Ha Hs Hw Hne Hhost Hwww Ht.
  unfold Normalizer.normalizeDomain, Url.spelled.
  rewrite toLowerCase_trim, !toLowerCase_app.
  rewrite trim_space_around
    by (rewrite all_chars_lower; [assumption|apply is_space_lower]).
  set (L := Js.toLowerCase host). set (T := Js.toLowerCase tail).
  assert (HL : Js.all_chars Url.host_char L = true).
  { subst L. rewrite all_chars_lower; [assumption|apply host_char_lower]. }
  assert (HLne : L <> "").
  { subst L. destruct host; [congruence|discriminate]. }
  assert (HT : T = "" \/ exists p, T = String "/" p).
  { subst T. destruct Ht as [->|Ht]; [now left|]. right.
    destruct tail as [|c r]; [discriminate|]. cbn [Js.startsWith] in Ht.
    destruct (Ascii.eqb "/" c) eqn:E; [|discriminate].
    apply Ascii.eqb_eq in E. subst c. now eexists. }
  assert (HLhead : match L with "" => False | String c _ => Js.is_space c = false end).
  { destruct L as [|c r]; [congruence|]. cbn [Js.all_chars] in HL.
    apply andb_true_iff in HL as [Hc _]. now apply host_char_not_space. }
  assert (Hwww' : Js.toLowerCase www = "" -> Js.startsWith "www." L = false).
  { intros E. apply Hwww. destruct www; [reflexivity|discriminate]. }
  rewrite <- (str_app_assoc (Js.toLowerCase scheme)).
  destruct (trim_core (Js.toLowerCase scheme ++ Js.toLowerCase www) L T)
    as (T' & -> & HT'); [|assumption..|].
  { destruct Hs as [->|[->| ->]], Hw as [->| ->]; try reflexivity. exact HLhead. }
  assert (Hhd : hd "" (Js.split "/" (L ++ T')) = L).
  { destruct HT' as [->|[p ->]].
    - rewrite str_app_nil_r. apply split_hd_fixed.
      revert HL. apply all_chars_impl, host_char_not_slash.
    - apply split_hd_path. revert HL. apply all_chars_impl, host_char_not_slash. }
  assert (Hpre : Normalizer.replace_prefix
                   ((Js.toLowerCase scheme ++ Js.toLowerCase www) ++ L ++ T')
                 = L ++ T'); [|now rewrite Hpre].
  unfold Normalizer.replace_prefix.
  assert (Hscheme : Normalizer.strip_scheme
                      ((Js.toLowerCase scheme ++ Js.toLowerCase www) ++ L ++ T')
                    = Js.toLowerCase www ++ L ++ T').
  { destruct Hs as [->|[->| ->]]; [|reflexivity..].
    destruct Hw as [->| ->]; [|reflexivity].
    change (Normalizer.strip_scheme (L ++ T') = L ++ T'). now apply no_scheme. }
  rewrite Hscheme. destruct Hw as [E|E]; rewrite E; [|reflexivity].
  change (Normalizer.strip_www (L ++ T') = L ++ T'). apply no_www; auto.
Qed.

Lemma normalizeDomain_spellings_witness :
  Normalizer.normalizeDomain
    (Url.spelled "  " "HTTPS://" "www." "Example.COM" "/path/a b " (String "009" ""))
  = "example.com".
Proof.
  apply (normalizeDomain_spellings "  " "HTTPS://" "www." "Example.COM" "/path/a b "
           (String "009" "")).
  - reflexivity.
  - reflexivity.
  - right. right. reflexivity.
  - right. reflexivity.
  - discriminate.
  - reflexivity.
  - discriminate.
  - right. reflexivity.
Defined.

(* ===================================================================== *)
(** ** What the orchestrator answers ([src/api/orchestrator.js]) *)
(* ===================================================================== *)

Section OrchestratorAnswers.
Import Exc Json Prober Http Orchestrator.
Variable tie : bool.
Variable resolver : string -> Network.
Variable completion : list nat.
Variable API_KEY : option string.
Variable generateContent : exc (option string).

Local Ltac mode_cases s :=
  destruct s as [|[[] [] [] [] [] [] [] []] s];
  try (right; right; right; reflexivity);
  try (left; reflexivity);
  try (right; left; reflexivity);
  try (right; right; left; reflexivity).

(** The [switch] on [mode] has three cases and a default. *)
Lemma dispatch_mode body :
  mode body = Some "generate" \/ mode body = Some "check" \/
  mode body = Some "categorize" \/
  dispatch tie resolver completion generateContent body
  = Some (Val (mkResponse 400 (ErrorBody "Invalid mode specified."))).
Proof.
  unfold dispatch. destruct (mode body) as [s|]; [|auto].
  do 11 (try mode_cases s).
Qed.

End OrchestratorAnswers.

(** X14: the orchestrator answers 405 to anything but a POST and, to a
    POST, 500 when the API key is not configured, before the body is read.
    An answer with status 200 is only given to a POST with a readable body
    in one of the three modes: in mode [generate], with keywords and TLDs,
    it carries the non-empty lines of the model's text; in mode [check],
    with a [domains] array (which may be empty), it carries one result per
    domain, in input order, never a part of them; in mode [categorize],
    with a [domains] array, it carries the model's text as it is. *)
Theorem orchestrator_answers
    (tie : bool) (resolver : string -> Prober.Network) (completion : list nat)
    (API_KEY : option string) (generateContent : Exc.exc (option string))
    (req : Http.Request) :
  (Http.method req <> "POST" ->
   Orchestrator.handler tie resolver completion API_KEY generateContent req
   = Some (Http.mkResponse 405 (Http.ErrorBody "Method not allowed"))) /\
  (Http.method req = "POST" -> Http.falsy API_KEY = true ->
   Orchestrator.handler tie resolver completion API_KEY generateContent req
   = Some (Http.mkResponse 500
             (Http.ErrorBody "Server configuration error: API_KEY is missing."))) /\
  (forall response,
      Orchestrator.handler tie resolver completion API_KEY generateContent req
      = Some response ->
      Http.status response = 200 ->
      exists body,
        Http.method req = "POST" /\ Http.falsy API_KEY = false /\
        Http.json req = Exc.Val body /\
        ((Http.mode body = Some "generate" /\
          Http.falsy (Http.keywords body) = false /\
          Http.falsy (Http.tlds body) = false /\
          exists text ds,
            generateContent = Exc.Val text /\ Http.parse_lines text = Exc.Val ds /\
            Http.payload response = Http.Domains ds) \/
         (Http.mode body = Some "check" /\
          exists ds rs,
            Http.domains body = Some ds /\
            Http.payload response = Http.Results rs /\
            map Prober.domain rs = ds) \/
         (Http.mode body = Some "categorize" /\
          exists ds text,
            Http.domains body = Some ds /\
            generateContent = Exc.Val text /\
            Http.payload response = Http.Text text))).
Proof.
  unfold Orchestrator.handler. split; [|split].
  - intros Hm. apply String.eqb_neq in Hm. now rewrite Hm.
  - intros -> ->. reflexivity.
  - intros response.
    destruct (String.eqb (Http.method req) "POST") eqn:Hm; cbn [negb];
      [|intros [= <-]; discriminate].
    apply String.eqb_eq in Hm.
    destruct (Http.falsy API_KEY) eqn:Hk; [intros [= <-]; discriminate|].
    destruct (Http.json req) as [body|e]; [|intros [= <-]; discriminate].
    cbn [mbind Exc.exc_bind].
    destruct (dispatch_mode tie resolver completion generateContent body)
      as [Hmode|[Hmode|[Hmode|Hd]]].
    + unfold Orchestrator.dispatch. rewrite Hmode.
      destruct (Http.falsy (Http.keywords body)) eqn:Hkw;
        [intros [= <-]; discriminate|].
      destruct (Http.falsy (Http.tlds body)) eqn:Htl;
        [intros [= <-]; discriminate|].
      cbn [orb].
      destruct generateContent as [text|e]; [|intros [= <-]; discriminate].
      cbn [mbind Exc.exc_bind].
      destruct (Http.parse_lines text) as [ds|e] eqn:Hp;
        [|intros [= <-]; discriminate].
      intros [= <-] _. exists body. split; [exact Hm|]. split; [reflexivity|].
      split; [reflexivity|]. left. eauto 10.
    + unfold Orchestrator.dispatch. rewrite Hmode.
      destruct (Http.domains body) as [ds|] eqn:Hd;
        [|intros [= <-]; discriminate].
      destruct (probes_fulfilled tie resolver ds) as (rs & Hrs & Hdom).
      rewrite Hrs.
      destruct (Promise.all (Exc.Val <$> rs) completion) as [r|] eqn:Hall;
        [|discriminate].
      apply all_fulfilled_inv in Hall as ->.
      intros [= <-] _. exists body. split; [exact Hm|]. split; [reflexivity|].
      split; [reflexivity|]. right. left. eauto 10.
    + unfold Orchestrator.dispatch. rewrite Hmode.
      destruct (Http.domains body) as [ds|] eqn:Hd;
        [|intros [= <-]; discriminate].
      destruct generateContent as [text|e]; [|intros [= <-]; discriminate].
      intros [= <-] _. exists body. split; [exact Hm|]. split; [reflexivity|].
      split; [reflexivity|]. right. right. eauto 10.
    + rewrite Hd. intros [= <-]. discriminate.
Qed.

Lemma orchestrator_answers_witness :
  Orchestrator.handler false (fun _ => Prober.Hangs) [0] None (Exc.Val None)
    (Http.mkRequest "POST"
       (Exc.Val (Http.mkBody (Some "check") (Some ["a.com"]) None None)))
  = Some (Http.mkResponse 500
            (Http.ErrorBody "Server configuration error: API_KEY is missing.")).
Proof.
  apply (proj1 (proj2 (orchestrator_answers false (fun _ => Prober.Hangs) [0] None
                         (Exc.Val None)
                         (Http.mkRequest "POST"
                            (Exc.Val (Http.mkBody (Some "check") (Some ["a.com"])
                                        None None)))))).
  - reflexivity.
  - reflexivity.
Defined.

Example orchestrator_checks_empty_list :
  Orchestrator.handler false (fun _ => Prober.Hangs) [] (Some "key") (Exc.Val None)
    (Http.mkRequest "POST" (Exc.Val (Http.mkBody (Some "check") (Some []) None None)))
  = Some (Http.mkResponse 200 (Http.Results [])).
Proof. reflexivity. Qed.
